(** * The Mol* / Shiny glue module

    A shallow embedding of the viewer glue code (the module that registers
    the Shiny message handlers, keeps the [overpaintLayers] cache and
    forwards hover events) together with the JavaScript built-ins it calls.

    - JavaScript numbers are IEEE binary64 values, [spec_float] of the
      standard library; strings are lists of UTF-16 code units.
    - The visualization library is an opaque collaborator: the embedding
      records the commands the glue issues to it (an event list) and the data
      the glue reads from it, and gives the structure query generator
      [atoms] its documented meaning (the atoms passing every test).
    - A function body is a computation over the module state [World] that
      yields a completion (ran to its end, early [return], or a thrown
      exception), the new state and the events it issued, oldest first.
    - Messages arrive one at a time and every operation runs to its
      settlement before the next; the host object [window.Shiny] is present.
    - [initMolstar] (viewer creation, download and parsing of a structure)
      is library protocol and is not embedded; towards the module state it
      sets [plugin] and empties the cache with [overpaintLayers.length = 0].
    - Of the exceptions raised inside library calls one is modelled: the
      state builder's [plugin.build().to(ref)] throws when the tree has no
      node with that ref (the cartoon node is created at the end of
      [initMolstar] only).  Other library exceptions and resource exhaustion
      (call-stack depth, argument-count limits) are outside the model. *)

From Stdlib Require Import ZArith List Bool String Ascii Lia.
From Stdlib Require Import Permutation Sorted QArith Qpower DecimalString.
From Stdlib Require Import Floats.SpecFloat.
Import ListNotations.
Local Open Scope Z_scope.

Set Implicit Arguments.
Set Warnings "-register-all".

(** ** JavaScript strings *)

Definition CodeUnit := N.
Definition JSString := list CodeUnit.

(** A string literal of the source, as its code units. *)
Fixpoint str (s : string) : JSString :=
  match s with
  | EmptyString => []
  | String c s' => N_of_ascii c :: str s'
  end.

Definition JSString_eqb (a b : JSString) : bool :=
  if list_eq_dec N.eq_dec a b then true else false.

(** [String.prototype.startsWith(prefix)]. *)
Fixpoint startsWith (s prefix : JSString) : bool :=
  match prefix, s with
  | [], _ => true
  | p :: prefix', c :: s' => N.eqb c p && startsWith s' prefix'
  | _ :: _, [] => false
  end.

(** [String.prototype.slice(start)] for a start index inside [0, length]. *)
Definition slice (s : JSString) (start : nat) : JSString := skipn start s.

(** ** JavaScript numbers *)

Definition number := spec_float.

Definition binary64 (z : Z) (negative_zero : bool) : number :=
  binary_normalize 53 1024 z 0 negative_zero.

Definition isNaN (x : number) : bool :=
  match x with S754_nan => true | _ => false end.

Definition Number_isFinite (x : number) : bool :=
  match x with S754_zero _ | S754_finite _ _ _ => true | _ => false end.

(** The signed significand of a finite number. *)
Definition significand (x : number) : Z :=
  match x with
  | S754_finite s m _ => if s then Z.neg m else Z.pos m
  | _ => 0
  end.

Definition exponent (x : number) : Z :=
  match x with S754_finite _ _ e => e | _ => 0 end.

(** [Math.floor] of a finite number.  The result is an integral number and
    is kept as the integer it denotes ([Z.shiftl] by a negative amount is the
    floor division by the power of two). *)
Definition Math_floor (x : number) : Z := Z.shiftl (significand x) (exponent x).

(** The integral number denoted by an integer (a library integer column
    value read as a number). *)
Definition of_int (z : Z) : number :=
  match z with
  | Z0 => S754_zero false
  | Zpos p => S754_finite false p 0
  | Zneg p => S754_finite true p 0
  end.

(** Numeric comparison: [None] when either side is NaN.  Finite operands are
    compared exactly, after scaling both to the smaller exponent. *)
Definition compare_finite (x y : number) : comparison :=
  let k := Z.min (exponent x) (exponent y) in
  Z.compare (significand x * 2 ^ (exponent x - k))
            (significand y * 2 ^ (exponent y - k)).

Definition number_compare (x y : number) : option comparison :=
  match x, y with
  | S754_nan, _ | _, S754_nan => None
  | S754_infinity s1, S754_infinity s2 =>
      Some (match s1, s2 with
            | true, false => Lt
            | false, true => Gt
            | _, _ => Eq
            end)
  | S754_infinity s, _ => Some (if s then Lt else Gt)
  | _, S754_infinity s => Some (if s then Gt else Lt)
  | _, _ => Some (compare_finite x y)
  end.

(** [x <= y], [x >= y] and [x === y] on numbers. *)
Definition number_le (x y : number) : bool :=
  match number_compare x y with Some Lt | Some Eq => true | _ => false end.

Definition number_ge (x y : number) : bool := number_le y x.

Definition number_strict_eq (x y : number) : bool :=
  match number_compare x y with Some Eq => true | _ => false end.

(** ** [parseInt(string, radix)] *)

(** StrWhiteSpaceChar: WhiteSpace and LineTerminator code points. *)
Definition isStrWhiteSpaceChar (c : CodeUnit) : bool :=
  (existsb (N.eqb c)
     [0x9; 0xA; 0xB; 0xC; 0xD; 0x20; 0xA0; 0x1680; 0x2028; 0x2029; 0x202F;
      0x205F; 0x3000; 0xFEFF]%N
   || ((0x2000 <=? c) && (c <=? 0x200A)))%N.

Fixpoint trimStart (s : JSString) : JSString :=
  match s with
  | c :: s' => if isStrWhiteSpaceChar c then trimStart s' else s
  | [] => []
  end.

(** The value of a code unit as a digit: [0-9], [a-z], [A-Z]. *)
Definition digitValue (c : CodeUnit) : option Z :=
  if ((48 <=? c) && (c <=? 57))%N then Some (Z.of_N c - 48)
  else if ((65 <=? c) && (c <=? 90))%N then Some (Z.of_N c - 55)
  else if ((97 <=? c) && (c <=? 122))%N then Some (Z.of_N c - 87)
  else None.

(** The longest prefix of radix-[R] digits, as digit values. *)
Fixpoint radixDigits (R : Z) (s : JSString) : list Z :=
  match s with
  | c :: s' =>
      match digitValue c with
      | Some d => if d <? R then d :: radixDigits R s' else []
      | None => []
      end
  | [] => []
  end.

Definition mathInt (R : Z) (digits : list Z) : Z :=
  fold_left (fun acc d => acc * R + d) digits 0.

(** [parseInt] with an explicit radix in [2, 36]; the source only uses
    radix 16, for which the result is the exactly rounded integer. *)
Definition parseInt (string : JSString) (radix : Z) : number :=
  let S := trimStart string in
  let negative := startsWith S (str "-") in
  let S := if startsWith S (str "+") || negative then slice S 1 else S in
  if (radix <? 2) || (36 <? radix) then S754_nan
  else
    let S :=
      if (radix =? 16) && (startsWith S (str "0x") || startsWith S (str "0X"))
      then slice S 2 else S in
    match radixDigits radix S with
    | [] => S754_nan
    | digits =>
        let n := mathInt radix digits in
        binary64 (if negative then - n else n) negative
    end.

(** [Number.prototype.toString()] of an integral number below [10^21] in
    magnitude (sequence ids are 32-bit integers): its decimal digits. *)
Definition Number_toString (z : Z) : JSString :=
  str (NilZero.string_of_int (Z.to_int z)).

(** ** JavaScript values received from the host *)

(** Values that are not arrays. *)
Inductive JSPrim : Type :=
| JUndefined
| JNull
| JBoolean (b : bool)
| JNumber (n : number)
| JString (s : JSString)
| JObject.  (* a plain object, as JSON deserialization yields *)

(** A value: a non-array value, or an array of values ([Array.isArray]
    tells the two apart). *)
Inductive JSValue : Type :=
| JLeaf (p : JSPrim)
| JArray (elems : list JSValue).

(** [Array.from(new Set(xs))]: the distinct members in insertion order
    ([Set.prototype.add] ignores a value that is already a member). *)
Definition Set_add (s : list Z) (x : Z) : list Z :=
  if existsb (Z.eqb x) s then s else s ++ [x].

Definition Array_from_Set (xs : list Z) : list Z := fold_left Set_add xs [].

(** [Array.prototype.sort(compareFn)]: [a] is placed before [b] when
    [compareFn a b <= 0]. *)
Fixpoint sort_insert (compareFn : Z -> Z -> Z) (x : Z) (l : list Z) : list Z :=
  match l with
  | [] => [x]
  | y :: l' =>
      if compareFn x y <=? 0 then x :: l else y :: sort_insert compareFn x l'
  end.

Definition Array_sort (compareFn : Z -> Z -> Z) (l : list Z) : list Z :=
  fold_right (sort_insert compareFn) [] l.

(** [xs.filter(n => n !== null)] on an array of [number | null]. *)
Fixpoint filter_not_null (A : Type) (xs : list (option A)) : list A :=
  match xs with
  | [] => []
  | Some x :: xs' => x :: filter_not_null xs'
  | None :: xs' => filter_not_null xs'
  end.

Section Coercion.

(** StringToNumber, the numeric value of a string: a built-in whose result
    on long literals is implementation-approximated; taken as given. *)
Variable StringToNumber : JSString -> number.

(** [Number(p)] on a non-array value. *)
Definition Number (p : JSPrim) : number :=
  match p with
  | JUndefined => S754_nan
  | JNull => S754_zero false
  | JBoolean b => if b then of_int 1 else S754_zero false
  | JNumber n => n
  | JString s => StringToNumber s
  | JObject => StringToNumber (str "[object Object]")
  end.

(** The local [flatten] of [highlightResidueWithSphere]. *)
Fixpoint flatten (arr : JSValue) : list JSPrim :=
  match arr with
  | JLeaf p => [p]
  | JArray elems =>
      fold_left
        (fun acc v =>
           match v with
           | JArray _ => acc ++ flatten v
           | JLeaf p => acc ++ [p]
           end)
        elems []
  end.

Definition posNums (rawFlat : list JSPrim) : list Z :=
  filter_not_null
    (map (fun p =>
            let n := Number p in
            if Number_isFinite n then Some (Math_floor n) else None)
         rawFlat).

(** The cleaned positions [uniquePos] of [highlightResidueWithSphere]. *)
Definition uniquePos (positions : JSValue) : list Z :=
  let rawFlat := flatten positions in
  Array_sort (fun a b => a - b) (Array_from_Set (posNums rawFlat)).

End Coercion.

(** ** The visualization library, as far as the glue code sees it *)

(** An atom of a structure with the properties the queries read through
    [StructureProperties] ([ctx.element]). *)
Record Location : Type := {
  chain_label_asym_id : JSString;
  residue_label_seq_id : Z;
  atom_label_atom_id : JSString
}.

(** The atoms of a loaded structure ([cell.obj.data]). *)
Definition Structure := list Location.

(** A selection, and the bundle made from it, are the atoms selected. *)
Definition Selection := list Location.
Definition Bundle := list Location.

Definition Bundle_fromSelection (selection : Selection) : Bundle := selection.

(** The parameters of the query generator [atoms]; a test that is not given
    accepts every atom. *)
Record AtomsQueryParams : Type := {
  chainTest : option (Location -> bool);
  residueTest : option (Location -> bool)
}.

Definition runTest (test : option (Location -> bool)) (element : Location) : bool :=
  match test with
  | Some t => t element
  | None => true
  end.

(** [atoms(params)] applied to [new QueryContext(structure)]: the atoms of
    the structure that pass every test. *)
Definition atoms (params : AtomsQueryParams) (structure : Structure) : Selection :=
  filter (fun element =>
            runTest (chainTest params) element
            && runTest (residueTest params) element)
         structure.

(** [plugin.managers.structure.hierarchy.current.structures]: each entry has
    a state cell whose object, when present, carries the structure data. *)
Record StructureObject : Type := { data : Structure }.
Record StateObjectCell : Type := { obj : option StructureObject }.
Record StructureRef : Type := { cell : StateObjectCell }.

(** Of the plugin the glue also reads, through [plugin.build().to(ref)],
    which refs name a node of the state tree: [tree_refs] are those refs. *)
Record PluginContext : Type := {
  structures : list StructureRef;
  tree_refs : list JSString
}.

(** The MolScript expression built by [highlightResidueWithSphere]:
    [atomGroups] with an equality test on the chain, a set-membership test on
    the residue sequence id and an equality test on the atom name. *)
Record AtomGroupsExpression : Type := {
  chain_test_label_asym_id_eq : JSString;
  residue_test_label_seq_id_in : list Z;
  atom_test_label_atom_id_eq : JSString
}.

(** A colour is the number it was made from ([Color(hex)] is a cast). *)
Definition Color := number.

(** The properties handed to [createStructureRepresentationParams]. *)
Record RepresentationProps : Type := {
  props_type : JSString;
  props_color : JSString;
  colorParams_value : Color;
  props_size : JSString;
  sizeParams_value : Z
}.

(** A record of the overpaint cache. *)
Record OverpaintLayer : Type := {
  bundle : Bundle;
  color : Color;
  clear : bool
}.

(** The [layers] parameter of the overpaint transform is an array object:
    either the module's cache array itself or a fresh array literal. *)
Inductive LayersParam : Type :=
| layers_overpaintLayers
| layers_literal (layers : list OverpaintLayer).

Inductive Transform : Type :=
| CreateGroup (label : JSString)
| StructureSelectionFromExpression (expression : AtomGroupsExpression)
| StructureRepresentation3D (structure : Structure) (props : RepresentationProps)
| OverpaintStructureRepresentation3DFromBundle (layers : LayersParam).

(** The steps of a state builder, [plugin.build()]. *)
Inductive BuilderOp : Type :=
| op_to (ref : JSString)
| op_to_cell (c : StateObjectCell)
| op_apply (t : Transform) (ref : option JSString) (tags : list JSString)
| op_delete (ref : JSString).

Inductive LogArg : Type :=
| arg_string (s : JSString)
| arg_number (n : number)
| arg_positions (l : list Z).

Inductive HostValue : Type :=
| host_string (s : JSString)
| host_number (z : Z).

(** What the glue code does to the outside: console output, committed state
    builders, camera and highlight manager calls, inputs set on the host. *)
Inductive Event : Type :=
| console_log (text : string) (args : list LogArg)
| console_warn (text : string) (args : list LogArg)
| commit (ops : list BuilderOp)
| camera_reset
| camera_focusLoci (loci : Bundle)
| lociHighlights_highlight (loci : Bundle)
| Shiny_setInputValue (name : JSString) (value : HostValue).

(** Hover loci.  An element pairs a unit with an ordered set of unit-local
    indices; of the ordered set the glue only reads [OrderedSet.start]. *)
Record Model : Type := {
  residueAtomSegments_index : nat -> nat;
  atoms_label_comp_id : nat -> JSString;
  residues_label_seq_id : nat -> Z
}.

Record Unit : Type := {
  unit_elements : list nat;
  unit_model : Model
}.

Record OrderedSet : Type := { OrderedSet_start : option nat }.

Record LociElement : Type := {
  element_unit : option Unit;
  element_indices : OrderedSet
}.

Inductive Loci : Type :=
| StructureElementLoci (elements : list LociElement)
| OtherLoci.

Definition StructureElement_Loci_is (loci : Loci) : bool :=
  match loci with StructureElementLoci _ => true | OtherLoci => false end.

Definition loci_elements (loci : Loci) : list LociElement :=
  match loci with StructureElementLoci elements => elements | OtherLoci => [] end.

(** ** The glue module: state and effects *)

(** The module-level state: the overpaint cache, the module variable
    [plugin] (unset until the viewer is created) and the host's input
    namespace [window.MY_MODULE_NS]. *)
Record World : Type := {
  overpaintLayers : list OverpaintLayer;
  plugin : option PluginContext;
  MY_MODULE_NS : JSString
}.

(** [CouldNotFindNode ref] is the [Error] with message
    ["Could not find node '<ref>'."] that the state builder throws. *)
Inductive Exception : Type :=
| TypeError (message : string)
| CouldNotFindNode (ref : JSString).

(** How a function body ends: at its end with a value, at a [return]
    statement before its end, or by a thrown exception. *)
Inductive Completion (A : Type) : Type :=
| Normal (a : A)
| Return
| Throw (e : Exception).

Arguments Normal {A} a.
Arguments Return {A}.
Arguments Throw {A} e.

Definition M (A : Type) : Type := World -> Completion A * World * list Event.

Definition ret {A : Type} (a : A) : M A := fun w => (Normal a, w, []).

Definition bind {A B : Type} (c : M A) (k : A -> M B) : M B :=
  fun w =>
    match c w with
    | (Normal a, w1, evs1) =>
        match k a w1 with
        | (r, w2, evs2) => (r, w2, evs1 ++ evs2)
        end
    | (Return, w1, evs1) => (Return, w1, evs1)
    | (Throw e, w1, evs1) => (Throw e, w1, evs1)
    end.

Declare Scope glue_scope.
Delimit Scope glue_scope with glue.
Notation "x <- c ;; k" := (bind c (fun x => k))
  (at level 61, c at next level, right associativity) : glue_scope.
Notation "c ;; k" := (bind c (fun _ => k))
  (at level 61, right associativity) : glue_scope.
Local Open Scope glue_scope.

Definition emit (e : Event) : M unit := fun w => (Normal tt, w, [e]).
Definition return_ {A : Type} : M A := fun w => (Return, w, []).
Definition throw {A : Type} (e : Exception) : M A := fun w => (Throw e, w, []).

Definition get_overpaintLayers : M (list OverpaintLayer) :=
  fun w => (Normal (overpaintLayers w), w, []).

Definition set_overpaintLayers (layers : list OverpaintLayer) : M unit :=
  fun w =>
    (Normal tt,
     {| overpaintLayers := layers; plugin := plugin w;
        MY_MODULE_NS := MY_MODULE_NS w |},
     []).

Definition get_MY_MODULE_NS : M JSString :=
  fun w => (Normal (MY_MODULE_NS w), w, []).

Definition get_plugin : M (option PluginContext) :=
  fun w => (Normal (plugin w), w, []).

(** [overpaintLayers.push(layer)] and [overpaintLayers.length = 0]: both
    mutate the one cache array in place. *)
Definition overpaintLayers_push (layer : OverpaintLayer) : M unit :=
  layers <- get_overpaintLayers ;; set_overpaintLayers (layers ++ [layer]).

Definition overpaintLayers_truncate : M unit := set_overpaintLayers [].

(** The array a [layers] parameter denotes in a given state. *)
Definition deref (w : World) (p : LayersParam) : list OverpaintLayer :=
  match p with
  | layers_overpaintLayers => overpaintLayers w
  | layers_literal layers => layers
  end.


Definition completion {A : Type} (r : Completion A * World * list Event) :
  Completion A := fst (fst r).
Definition world_after {A : Type} (r : Completion A * World * list Event) :
  World := snd (fst r).
Definition events {A : Type} (r : Completion A * World * list Event) :
  list Event := snd r.

Definition cartoonRef : JSString := str "cartoon-representation".

(** [plugin.managers.structure.hierarchy.current.structures[0]?.cell.obj?.data] *)
Definition first_structure_data (plugin : PluginContext) : option Structure :=
  match nth_error (structures plugin) 0 with
  | Some structCell =>
      match obj (cell structCell) with
      | Some o => Some (data o)
      | None => None
      end
  | None => None
  end.

(** Whether the state tree of the plugin has a node with this ref. *)
Definition has_node (plugin : PluginContext) (ref : JSString) : bool :=
  existsb (JSString_eqb ref) (tree_refs plugin).

(** [plugin.build().to(ref)]: the builder positioned at the node, or the
    exception when the tree has no such node. *)
Definition build_to (plugin : PluginContext) (ref : JSString) : M (list BuilderOp) :=
  if has_node plugin ref then ret [op_to ref] else throw (CouldNotFindNode ref).

(** The colour test shared by both highlight functions. *)
Definition hex_of (colorHex : JSString) : JSString :=
  if startsWith colorHex (str "#") then slice colorHex 1 else colorHex.

(** A parameter with a default value: [undefined] selects the default. *)
Definition with_default {A : Type} (arg : option A) (default : A) : A :=
  match arg with Some a => a | None => default end.

(** ** The functions of the module *)

Definition Bundle_toLoci (bundle : Bundle) (structure : Structure) : Bundle :=
  bundle.

Section Functions.

Variable StringToNumber : JSString -> number.

(** [highlightResidueWithSphere(plugin, positions, colorHex = '#ff0000')] *)
Definition highlightResidueWithSphere (plugin : PluginContext)
    (positions : JSValue) (colorHex : option JSString) : M unit :=
  let colorHex := with_default colorHex (str "#ff0000") in
  let uniquePos := uniquePos StringToNumber positions in
  emit (console_log "cleaned integer positions:" [arg_positions uniquePos]) ;;
  if (List.length uniquePos =? 0)%nat then
    emit (console_warn "No valid positions after cleaning; aborting highlight." []) ;;
    return_
  else
    let hex := if startsWith colorHex (str "#") then slice colorHex 1 else colorHex in
    let colorValue := parseInt hex 16 in
    if isNaN colorValue then
      emit (console_warn "Invalid color:" [arg_string colorHex]) ;;
      return_
    else
      match nth_error (structures plugin) 0 with
      | None =>
          (* [structCell] is undefined and [structCell.cell] is read *)
          throw (TypeError "Cannot read properties of undefined (reading 'cell')")
      | Some structCell =>
          let b := [op_to_cell (cell structCell)] in
          let group :=
            b ++ [op_apply (CreateGroup (str "mutations"))
                           (Some (str "mutations")) []] in
          let expression :=
            {| chain_test_label_asym_id_eq := str "A";
               residue_test_label_seq_id_in := uniquePos;
               atom_test_label_atom_id_eq := str "CA" |} in
          match obj (cell structCell) with
          | None =>
              (* [structCell.cell.obj] is undefined and [.data] is read *)
              throw (TypeError "Cannot read properties of undefined (reading 'data')")
          | Some o =>
              emit (commit
                      (group ++
                       [op_apply (StructureSelectionFromExpression expression)
                                 None [];
                        op_apply
                          (StructureRepresentation3D (data o)
                             {| props_type := str "ball-and-stick";
                                props_color := str "uniform";
                                colorParams_value := colorValue;
                                props_size := str "uniform";
                                sizeParams_value := 10 |})
                          None [str "mutations-group"]]))
          end
      end.

(** [clearOverlays(plugin)] *)
Definition clearOverlays (plugin : PluginContext) : M unit :=
  overpaintLayers_truncate ;;
  b <- build_to plugin cartoonRef ;;
  emit (commit (b ++ [op_apply (OverpaintStructureRepresentation3DFromBundle
                                  (layers_literal []))
                               None []])) ;;
  emit (commit [op_delete (str "mutations")]) ;;
  emit (console_log "Overpaint layers cleared" []).

(** [clearPaint(plugin)] *)
Definition clearPaint (plugin : PluginContext) : M unit :=
  overpaintLayers_truncate ;;
  b <- build_to plugin cartoonRef ;;
  emit (commit (b ++ [op_apply (OverpaintStructureRepresentation3DFromBundle
                                  (layers_literal []))
                               None []])).

(** [clearSpheres(plugin)] *)
Definition clearSpheres (plugin : PluginContext) : M unit :=
  emit (commit [op_delete (str "mutations")]).

(** [highlightDomains(plugin, residueStart, residueEnd, colorHex = "#ff0000")] *)
Definition highlightDomains (plugin : PluginContext)
    (residueStart residueEnd : number) (colorHex : option JSString) : M unit :=
  let colorHex := with_default colorHex (str "#ff0000") in
  match first_structure_data plugin with
  | None =>
      emit (console_warn "No Structure loaded" []) ;;
      return_
  | Some structure =>
      let hex := if startsWith colorHex (str "#") then slice colorHex 1 else colorHex in
      let colorValue := parseInt hex 16 in
      if isNaN colorValue then
        emit (console_warn "Invalid color:" [arg_string colorHex]) ;;
        return_
      else
        let query :=
          atoms {| chainTest := None;
                   residueTest := Some (fun element =>
                     let seqId := of_int (residue_label_seq_id element) in
                     number_ge seqId residueStart && number_le seqId residueEnd) |} in
        let selection := query structure in
        let bundle := Bundle_fromSelection selection in
        overpaintLayers_push
          {| bundle := bundle; color := colorValue; clear := false |} ;;
        b <- build_to plugin cartoonRef ;;
        emit (commit (b ++ [op_apply (OverpaintStructureRepresentation3DFromBundle
                                        layers_overpaintLayers)
                                     None []]))
  end.

(** What [getResidueInfo] returns. *)
Record ResidueInfo : Type := {
  aa : JSString;
  num : Z;
  label : JSString
}.

(** [getResidueInfo(loci)].  [label_comp_id.value] is the column's accessor
    function, so [value[atomIndex]] is undefined and [compId] is
    [value(atomIndex)]. *)
Definition getResidueInfo (loci : Loci) : option ResidueInfo :=
  if negb (StructureElement_Loci_is loci)
     || (List.length (loci_elements loci) =? 0)%nat
  then None
  else
    match nth_error (loci_elements loci) 0 with
    | None => None
    | Some e =>
        match element_unit e with
        | None => None
        | Some unit =>
            match OrderedSet_start (element_indices e) with
            | None => None
            | Some localIndex =>
                match nth_error (unit_elements unit) localIndex with
                | None => None
                | Some atomIndex =>
                    let model := unit_model unit in
                    let residueIndex := residueAtomSegments_index model atomIndex in
                    let compId := atoms_label_comp_id model atomIndex in
                    let seqId := residues_label_seq_id model residueIndex in
                    Some {| aa := compId;
                            num := seqId;
                            label := compId ++ str " " ++ Number_toString seqId |}
                end
            end
        end
    end.

(** The hover subscriber registered by [initMolstar]; [e.current.loci] is
    its argument.  The host object is present ([window.Shiny!]). *)
Definition hover_subscriber (loci : Loci) : M unit :=
  if negb (StructureElement_Loci_is loci)
     || (List.length (loci_elements loci) =? 0)%nat
  then return_
  else
    match getResidueInfo loci with
    | None => return_
    | Some info =>
        ns <- get_MY_MODULE_NS ;;
        emit (Shiny_setInputValue (ns ++ str "resi_aa") (host_string (aa info))) ;;
        emit (Shiny_setInputValue (ns ++ str "resi_num") (host_number (num info))) ;;
        emit (Shiny_setInputValue (ns ++ str "resiinfo") (host_string (label info)))
    end.

(** [zoomToResidue(plugin, residueNumber, chainId = 'A')] *)
Definition zoomToResidue (plugin : PluginContext) (residueNumber : number)
    (chainId : option JSString) : M unit :=
  let chainId := with_default chainId (str "A") in
  match first_structure_data plugin with
  | None =>
      emit (console_warn "No structure loaded" []) ;;
      return_
  | Some structure =>
      let query :=
        atoms {| chainTest := Some (fun element =>
                   let chain := chain_label_asym_id element in
                   JSString_eqb chain chainId);
                 residueTest := Some (fun element =>
                   let seqId := of_int (residue_label_seq_id element) in
                   number_strict_eq seqId residueNumber) |} in
      let selection := query structure in
      let bundle := Bundle_fromSelection selection in
      let loci := Bundle_toLoci bundle structure in
      emit (camera_focusLoci loci) ;;
      emit (console_log "Zoomed to residue ${residueNumber} in chain ${chainId}"
                        [arg_number residueNumber; arg_string chainId]) ;;
      emit (lociHighlights_highlight loci)
  end.

(** [resetCamera(plugin)] *)
Definition resetCamera (plugin : PluginContext) : M unit :=
  emit camera_reset ;;
  emit (console_log "Camera view reset to show entire structure" []).

End Functions.

(** ** The message handlers registered with the host

    A handler warns and returns when the module variable [plugin] is unset;
    otherwise it starts the operation.  The completion reported here is that
    of the operation (the settlement of the promise the handler drops). *)

Inductive Message : Type :=
| msg_highlightDomains (residueStart residueEnd : number) (colorHex : option JSString)
| msg_highlightResidueWithSphere (positions : JSValue) (colorHex : option JSString)
| msg_zoomToResidue (residueNumber : number) (chainId : option JSString)
| msg_clearOverlays
| msg_resetCamera
| msg_clearPaint.

Section Handlers.

Variable StringToNumber : JSString -> number.

Definition handler (msg : Message) : M unit :=
  p <- get_plugin ;;
  match msg with
  | msg_highlightDomains residueStart residueEnd colorHex =>
      match p with
      | None => emit (console_warn "Mol* not ready" []) ;; return_
      | Some plugin =>
          highlightDomains plugin residueStart residueEnd
            (Some (with_default colorHex (str "#ff0000")))
      end
  | msg_highlightResidueWithSphere positions colorHex =>
      match p with
      | None => emit (console_warn "Mol* not reaady" []) ;; return_
      | Some plugin =>
          highlightResidueWithSphere StringToNumber plugin
            (JArray [positions])
            (Some (with_default colorHex (str "#ff0000")))
      end
  | msg_zoomToResidue residueNumber chainId =>
      match p with
      | None => emit (console_warn "Mol* not ready" []) ;; return_
      | Some plugin =>
          zoomToResidue plugin residueNumber
            (Some (with_default chainId (str "A")))
      end
  | msg_clearOverlays =>
      match p with
      | None =>
          emit (console_warn "Mol* plugin not ready cannot clear overlays" []) ;;
          return_
      | Some plugin => clearOverlays plugin
      end
  | msg_resetCamera =>
      match p with
      | None =>
          emit (console_warn "Mol* plugin not ready cannot reset camera" []) ;;
          return_
      | Some plugin => resetCamera plugin
      end
  | msg_clearPaint =>
      match p with
      | None =>
          emit (console_warn "Mol* plugin not ready cannot clear overlays" []) ;;
          return_
      | Some plugin => clearPaint plugin
      end
  end.

End Handlers.

(** ** The earlier revision of the module ([src/main.ts])

    Its [highlightDomains] is the one above, word for word.  Its hover
    subscriber reads the first element without guards, takes the first index
    of the ordered set as the atom index, joins component id and sequence id
    with a no-break space and sets the single host input
    ['hoveredResidue']. *)
Module Legacy.

Record LociElement : Type := {
  element_unit : Unit;
  element_indices_start : nat
}.

Inductive Loci : Type :=
| StructureElementLoci (elements : list LociElement)
| OtherLoci.

Definition getResidueInfo (loci : Loci) : option JSString :=
  match loci with
  | OtherLoci => None
  | StructureElementLoci elements =>
      match elements with
      | [] => None
      | e :: _ =>
          let unit := element_unit e in
          let idx := element_indices_start e in
          let model := unit_model unit in
          let residueIndex := residueAtomSegments_index model idx in
          let compId := atoms_label_comp_id model idx in
          let seqId := residues_label_seq_id model residueIndex in
          (* the template joins the two with U+00A0, a no-break space *)
          Some (compId ++ [160%N] ++ Number_toString seqId)
      end
  end.

Definition hover_subscriber (loci : Loci) : M unit :=
  match loci with
  | StructureElementLoci _ =>
      match getResidueInfo loci with
      | Some label =>
          (* [if (label)]: a string is truthy unless it is empty *)
          if (List.length label =? 0)%nat then ret tt
          else emit (Shiny_setInputValue (str "hoveredResidue") (host_string label))
      | None => ret tt
      end
  | OtherLoci => ret tt
  end.

End Legacy.

(** ** Predicates on event lists *)

Definition is_warn (e : Event) : bool :=
  match e with console_warn _ _ => true | _ => false end.

Definition is_commit (e : Event) : bool :=
  match e with commit _ => true | _ => false end.

(** Whether a builder step names the state node [ref]. *)
Definition op_mentions (ref : JSString) (op : BuilderOp) : bool :=
  match op with
  | op_to r => JSString_eqb r ref
  | op_delete r => JSString_eqb r ref
  | op_apply _ (Some r) _ => JSString_eqb r ref
  | op_apply _ None _ => false
  | op_to_cell _ => false
  end.

Definition event_mentions (ref : JSString) (e : Event) : bool :=
  match e with
  | commit ops => existsb (op_mentions ref) ops
  | _ => false
  end.

(** The [layers] parameters of the overpaint transforms in an event list. *)
Definition op_layers (op : BuilderOp) : list LayersParam :=
  match op with
  | op_apply (OverpaintStructureRepresentation3DFromBundle layers) _ _ => [layers]
  | _ => []
  end.

Definition event_layers (e : Event) : list LayersParam :=
  match e with
  | commit ops => flat_map op_layers ops
  | _ => []
  end.

(** The residue sets of the selection expressions in an event list. *)
Definition op_residue_sets (op : BuilderOp) : list (list Z) :=
  match op with
  | op_apply (StructureSelectionFromExpression expression) _ _ =>
      [residue_test_label_seq_id_in expression]
  | _ => []
  end.

Definition event_residue_sets (e : Event) : list (list Z) :=
  match e with
  | commit ops => flat_map op_residue_sets ops
  | _ => []
  end.

(** ** Numbers as extended reals *)

Inductive ExtReal : Type :=
| ext_nan
| ext_neg_infinity
| ext_pos_infinity
| ext_real (q : Q).

Definition real_of (x : number) : ExtReal :=
  match x with
  | S754_nan => ext_nan
  | S754_infinity s => if s then ext_neg_infinity else ext_pos_infinity
  | S754_zero _ => ext_real 0
  | S754_finite _ _ e => ext_real (inject_Z (significand x) * (2 # 1) ^ e)
  end.

Definition ext_le (a b : ExtReal) : Prop :=
  match a, b with
  | ext_nan, _ | _, ext_nan => False
  | ext_neg_infinity, _ => True
  | _, ext_pos_infinity => True
  | ext_real p, ext_real q => (p <= q)%Q
  | _, _ => False
  end.

(** [z] lies in the closed interval of the numbers [lo] and [hi]. *)
Definition in_range (lo hi : number) (z : Z) : Prop :=
  ext_le (real_of lo) (ext_real (inject_Z z))
  /\ ext_le (ext_real (inject_Z z)) (real_of hi).

(** ** Operations on the module, for statements that range over all of them *)

Inductive Operation : Type :=
| call_highlightDomains (plugin : PluginContext) (residueStart residueEnd : number)
    (colorHex : option JSString)
| call_highlightResidueWithSphere (plugin : PluginContext) (positions : JSValue)
    (colorHex : option JSString)
| call_zoomToResidue (plugin : PluginContext) (residueNumber : number)
    (chainId : option JSString)
| call_clearOverlays (plugin : PluginContext)
| call_clearPaint (plugin : PluginContext)
| call_clearSpheres (plugin : PluginContext)
| call_resetCamera (plugin : PluginContext)
| host_message (msg : Message)
| hover (loci : Loci).

Definition run (StringToNumber : JSString -> number) (op : Operation) : M unit :=
  match op with
  | call_highlightDomains plugin residueStart residueEnd colorHex =>
      highlightDomains plugin residueStart residueEnd colorHex
  | call_highlightResidueWithSphere plugin positions colorHex =>
      highlightResidueWithSphere StringToNumber plugin positions colorHex
  | call_zoomToResidue plugin residueNumber chainId =>
      zoomToResidue plugin residueNumber chainId
  | call_clearOverlays plugin => clearOverlays plugin
  | call_clearPaint plugin => clearPaint plugin
  | call_clearSpheres plugin => clearSpheres plugin
  | call_resetCamera plugin => resetCamera plugin
  | host_message msg => handler StringToNumber msg
  | hover loci => hover_subscriber loci
  end.

(** The call a handler makes for a message once [plugin] is set. *)
Definition operation_of_message (plugin : PluginContext) (msg : Message) : Operation :=
  match msg with
  | msg_highlightDomains residueStart residueEnd colorHex =>
      call_highlightDomains plugin residueStart residueEnd
        (Some (with_default colorHex (str "#ff0000")))
  | msg_highlightResidueWithSphere positions colorHex =>
      call_highlightResidueWithSphere plugin (JArray [positions])
        (Some (with_default colorHex (str "#ff0000")))
  | msg_zoomToResidue residueNumber chainId =>
      call_zoomToResidue plugin residueNumber (Some (with_default chainId (str "A")))
  | msg_clearOverlays => call_clearOverlays plugin
  | msg_resetCamera => call_resetCamera plugin
  | msg_clearPaint => call_clearPaint plugin
  end.

(** The state after a sequence of operations, each run to its settlement. *)
Fixpoint run_all (StringToNumber : JSString -> number) (ops : list Operation)
    (w : World) : World :=
  match ops with
  | [] => w
  | op :: ops' => run_all StringToNumber ops' (world_after (run StringToNumber op w))
  end.

(** ** Reference definitions used in the statements *)

(** The non-array values of a nested array, left to right. *)
Fixpoint leaves (v : JSValue) : list JSPrim :=
  match v with
  | JLeaf p => [p]
  | JArray elems => flat_map leaves elems
  end.

(** The model and atom index the first index of a loci element resolves to:
    the unit is present, its ordered set has a first index, and that index
    lies inside the unit's elements. *)
Definition first_atom (e : LociElement) : option (Model * nat) :=
  match element_unit e with
  | Some unit =>
      match OrderedSet_start (element_indices e) with
      | Some localIndex =>
          match nth_error (unit_elements unit) localIndex with
          | Some atomIndex => Some (unit_model unit, atomIndex)
          | None => None
          end
      | None => None
      end
  | None => None
  end.

(** The residue label ["<comp_id> <seq_id>"] of an atom of a model. *)
Definition residue_label (model : Model) (atomIndex : nat) : JSString :=
  atoms_label_comp_id model atomIndex ++ str " "
  ++ Number_toString
       (residues_label_seq_id model (residueAtomSegments_index model atomIndex)).

(** The colour value both highlight functions compute from their [colorHex]
    argument. *)
Definition colorValue_of (colorHex : option JSString) : number :=
  parseInt (hex_of (with_default colorHex (str "#ff0000"))) 16.

(** The record [highlightDomains] pushes for a structure, two bounds and a
    colour value. *)
Definition domain_layer (structure : Structure) (residueStart residueEnd : number)
    (colorValue : number) : OverpaintLayer :=
  {| bundle :=
       filter (fun element =>
                 number_ge (of_int (residue_label_seq_id element)) residueStart
                 && number_le (of_int (residue_label_seq_id element)) residueEnd)
              structure;
     color := colorValue;
     clear := false |}.

(** A cached record that paints: its colour is a number and it does not
    clear earlier paint. *)
Definition painted (layer : OverpaintLayer) : Prop :=
  clear layer = false /\ isNaN (color layer) = false.

(** The state with another overpaint cache. *)
Definition with_layers (w : World) (layers : list OverpaintLayer) : World :=
  {| overpaintLayers := layers; plugin := plugin w; MY_MODULE_NS := MY_MODULE_NS w |}.

(** The builder committed by a successful [highlightDomains]. *)
Definition overpaint_commit (layers : LayersParam) : Event :=
  commit [op_to cartoonRef;
          op_apply (OverpaintStructureRepresentation3DFromBundle layers) None []].

(** The real value of a finite number. *)
Definition value (x : number) : Q :=
  inject_Z (significand x) * (2 # 1) ^ exponent x.

(** ** Sample data for the concrete runs *)

Definition sample_atom (chain : string) (seq : Z) (name : string) : Location :=
  {| chain_label_asym_id := str chain;
     residue_label_seq_id := seq;
     atom_label_atom_id := str name |}.

Definition sample_structure : Structure :=
  [sample_atom "A" 1 "N"; sample_atom "A" 1 "CA";
   sample_atom "A" 2 "N"; sample_atom "A" 2 "CA";
   sample_atom "A" 3 "CA"; sample_atom "B" 3 "CA";
   sample_atom "A" 7 "CA"].

(** A viewer with one loaded structure, and one with none. *)
Definition loaded_plugin : PluginContext :=
  {| structures := [{| cell := {| obj := Some {| data := sample_structure |} |} |}];
     tree_refs := [cartoonRef] |}.

Definition empty_plugin : PluginContext := {| structures := []; tree_refs := [] |}.

Definition sample_layer : OverpaintLayer :=
  {| bundle := [sample_atom "A" 1 "N"; sample_atom "A" 1 "CA"];
     color := of_int 255;
     clear := false |}.

Definition world_with (layers : list OverpaintLayer) (p : PluginContext) : World :=
  {| overpaintLayers := layers; plugin := Some p; MY_MODULE_NS := str "viewer-" |}.

(** A StringToNumber for runs whose input holds no string: every string is
    taken as not numeric. *)
Definition not_numeric (s : JSString) : number := S754_nan.

Definition pos (z : Z) : JSValue := JLeaf (JNumber (of_int z)).

Definition sample_model : Model :=
  {| residueAtomSegments_index := fun atomIndex => Nat.div atomIndex 2;
     atoms_label_comp_id := fun atomIndex =>
       if Nat.ltb atomIndex 2 then str "GLY" else str "ALA";
     residues_label_seq_id := fun residueIndex => 104 + Z.of_nat residueIndex |}.

Definition sample_unit : Unit :=
  {| unit_elements := [0; 1; 2; 3]%nat; unit_model := sample_model |}.

(** ** Further reference definitions *)

(** A viewer whose structure is loaded but that has no cartoon node (the
    state [initMolstar] leaves when no polymer component is found). *)
Definition bare_plugin : PluginContext :=
  {| structures := [{| cell := {| obj := Some {| data := sample_structure |} |} |}];
     tree_refs := [] |}.


(** The label of the earlier revision: component id, U+00A0, sequence id. *)
Definition Legacy_label (model : Model) (atomIndex : nat) : JSString :=
  atoms_label_comp_id model atomIndex ++ [160%N]
  ++ Number_toString
       (residues_label_seq_id model (residueAtomSegments_index model atomIndex)).

(** The number [x] is the integer [z]. *)
Definition number_equals_int (x : number) (z : Z) : Prop :=
  match real_of x with
  | ext_real q => (q == inject_Z z)%Q
  | _ => False
  end.

(** The operations whose source text writes [overpaintLayers]. *)
Definition writes_cache (op : Operation) : bool :=
  match op with
  | call_highlightDomains _ _ _ _ => true
  | call_clearOverlays _ => true
  | call_clearPaint _ => true
  | host_message (msg_highlightDomains _ _ _) => true
  | host_message msg_clearOverlays => true
  | host_message msg_clearPaint => true
  | _ => false
  end.

(** A domain highlight request of the host: two bounds and a colour. *)
Record DomainRequest : Type := {
  request_start : number;
  request_end : number;
  request_color : option JSString
}.

Definition request_message (r : DomainRequest) : Operation :=
  host_message
    (msg_highlightDomains (request_start r) (request_end r) (request_color r)).

Definition request_layer (structure : Structure) (r : DomainRequest) : OverpaintLayer :=
  domain_layer structure (request_start r) (request_end r)
    (colorValue_of (request_color r)).

(** A code unit that can start the digits of a hexadecimal [parseInt]. *)
Definition isHexDigit (c : CodeUnit) : bool :=
  match digitValue c with
  | Some d => d <? 16
  | None => false
  end.

(** * Properties *)

(** ** Sets and sorting *)

Lemma Set_add_In (s : list Z) (x y : Z) :
  In y (Set_add s x) <-> In y s \/ y = x.
Proof.
  unfold Set_add. destruct (existsb (Z.eqb x) s) eqn:E.
  - split; [auto|]. intros [H | ->]; [assumption|].
    apply existsb_exists in E. destruct E as (z & Hz & Hxz).
    apply Z.eqb_eq in Hxz. now subst.
  - rewrite in_app_iff. simpl. intuition.
Qed.

Lemma Set_add_NoDup (s : list Z) (x : Z) : NoDup s -> NoDup (Set_add s x).
Proof.
  intros Hs. unfold Set_add. destruct (existsb (Z.eqb x) s) eqn:E; [assumption|].
  apply NoDup_app.
  - assumption.
  - repeat constructor. simpl. tauto.
  - intros a Ha [<- | []].
    assert (existsb (Z.eqb x) s = true) as F; [|congruence].
    apply existsb_exists. exists x. split; [assumption | apply Z.eqb_refl].
Qed.

Lemma fold_Set_add_In (xs s : list Z) (y : Z) :
  In y (fold_left Set_add xs s) <-> In y s \/ In y xs.
Proof.
  revert s. induction xs as [|x xs IH]; intros s; simpl.
  - tauto.
  - rewrite IH, Set_add_In. intuition.
Qed.

Lemma fold_Set_add_NoDup (xs s : list Z) :
  NoDup s -> NoDup (fold_left Set_add xs s).
Proof.
  revert s. induction xs as [|x xs IH]; intros s Hs; simpl.
  - assumption.
  - apply IH, Set_add_NoDup, Hs.
Qed.

Lemma Array_from_Set_In (xs : list Z) (y : Z) :
  In y (Array_from_Set xs) <-> In y xs.
Proof. unfold Array_from_Set. rewrite fold_Set_add_In. simpl. tauto. Qed.

Lemma Array_from_Set_NoDup (xs : list Z) : NoDup (Array_from_Set xs).
Proof. apply fold_Set_add_NoDup. constructor. Qed.

Lemma sort_insert_In (x y : Z) (l : list Z) :
  In y (sort_insert (fun a b => a - b) x l) <-> y = x \/ In y l.
Proof.
  induction l as [|z l IH]; simpl.
  - intuition.
  - destruct ((fun a b => a - b) x z <=? 0); simpl; rewrite ?IH; intuition.
Qed.

Lemma sort_insert_sorted (x : Z) (l : list Z) :
  StronglySorted Z.lt l -> ~ In x l ->
  StronglySorted Z.lt (sort_insert (fun a b => a - b) x l).
Proof.
  induction l as [|z l IH]; intros Hs Hx; simpl.
  - repeat constructor.
  - apply StronglySorted_inv in Hs. destruct Hs as [Hs Hz].
    destruct (Z.leb_spec (x - z) 0) as [Hle | Hgt].
    + assert (x < z) as Hlt by (simpl in Hx; lia).
      constructor; [constructor; assumption|].
      constructor; [assumption|].
      rewrite Forall_forall in Hz |- *. intros a Ha. specialize (Hz a Ha). lia.
    + constructor.
      * apply IH; [assumption | simpl in Hx; tauto].
      * rewrite Forall_forall in Hz |- *. intros a Ha.
        apply sort_insert_In in Ha. destruct Ha as [-> | Ha]; [lia | auto].
Qed.

Lemma Array_sort_In (l : list Z) (y : Z) :
  In y (Array_sort (fun a b => a - b) l) <-> In y l.
Proof.
  induction l as [|x l IH]; simpl.
  - tauto.
  - rewrite sort_insert_In, IH. intuition.
Qed.

Lemma Array_sort_sorted (l : list Z) :
  NoDup l -> StronglySorted Z.lt (Array_sort (fun a b => a - b) l).
Proof.
  induction 1 as [|x l Hx Hl IH]; simpl.
  - constructor.
  - apply sort_insert_sorted; [assumption|]. now rewrite Array_sort_In.
Qed.

Lemma sort_insert_Permutation (compareFn : Z -> Z -> Z) (x : Z) (l : list Z) :
  Permutation (sort_insert compareFn x l) (x :: l).
Proof.
  induction l as [|z l IH]; simpl.
  - reflexivity.
  - destruct (compareFn x z <=? 0); [reflexivity|].
    rewrite IH. apply perm_swap.
Qed.

Lemma Array_sort_Permutation (compareFn : Z -> Z -> Z) (l : list Z) :
  Permutation (Array_sort compareFn l) l.
Proof.
  induction l as [|x l IH]; simpl.
  - reflexivity.
  - rewrite sort_insert_Permutation. now constructor.
Qed.

Lemma strictly_sorted_NoDup (l : list Z) : StronglySorted Z.lt l -> NoDup l.
Proof.
  induction 1 as [|x l Hs IH Hx]; constructor; [|assumption].
  intros Hin. rewrite Forall_forall in Hx. specialize (Hx x Hin). lia.
Qed.

(** A strictly (fun a b => a - b) list is determined by its members: whatever
    algorithm the engine's sort uses, the outcome is this list. *)
Lemma strictly_sorted_ext (l1 l2 : list Z) :
  StronglySorted Z.lt l1 -> StronglySorted Z.lt l2 ->
  (forall z, In z l1 <-> In z l2) -> l1 = l2.
Proof.
  intros H1. revert l2. induction H1 as [|x l1 Hs1 IH Hx]; intros l2 H2 Hmem.
  - destruct l2 as [|y l2]; [reflexivity|].
    exfalso. apply (Hmem y). now left.
  - destruct H2 as [|y l2 Hs2 Hy].
    + exfalso. apply (Hmem x). now left.
    + rewrite Forall_forall in Hx, Hy.
      assert (x = y) as ->.
      { destruct (proj1 (Hmem x) (or_introl eq_refl)) as [E | Hin]; [congruence|].
        destruct (proj2 (Hmem y) (or_introl eq_refl)) as [E | Hin']; [congruence|].
        specialize (Hx y Hin'). specialize (Hy x Hin). lia. }
      f_equal. apply IH; [assumption|].
      intros z. split; intros Hz.
      * destruct (proj1 (Hmem z) (or_intror Hz)) as [E | Hin]; [|assumption].
        specialize (Hx z Hz). lia.
      * destruct (proj2 (Hmem z) (or_intror Hz)) as [E | Hin]; [|assumption].
        specialize (Hy z Hz). lia.
Qed.

(** On distinct members the outcome of the sort does not depend on the
    sorting algorithm: any arrangement of the members that the comparator
    accepts is the list [Array_sort] computes. *)
Lemma Array_sort_unique (l sorted : list Z) :
  NoDup l ->
  Permutation sorted l ->
  StronglySorted (fun a b => a - b <= 0) sorted ->
  sorted = Array_sort (fun a b => a - b) l.
Proof.
  intros Hl Hp Hs. apply strictly_sorted_ext.
  - assert (NoDup sorted) as Hn
      by (apply (Permutation_NoDup (Permutation_sym Hp)), Hl).
    clear Hp. induction Hs as [|x xs Hs IH Hx]; constructor.
    + apply IH. now inversion Hn.
    + rewrite Forall_forall in Hx |- *. intros y Hy.
      specialize (Hx y Hy). cbv beta in Hx.
      assert (x <> y) by (inversion Hn; subst; congruence). lia.
  - now apply Array_sort_sorted.
  - intros z. rewrite Array_sort_In. split; apply Permutation_in;
      [assumption | now apply Permutation_sym].
Qed.

(** ** Flattening and cleaning of positions *)

Lemma JSValue_nested_ind (P : JSValue -> Prop) :
  (forall p, P (JLeaf p)) ->
  (forall elems, Forall P elems -> P (JArray elems)) ->
  forall v, P v.
Proof.
  intros Hleaf Harray. fix IH 1. intros [p | elems].
  - apply Hleaf.
  - apply Harray. induction elems as [|v elems IHelems]; constructor.
    + apply IH.
    + apply IHelems.
Qed.

Lemma flatten_reduce (elems : list JSValue) (acc : list JSPrim) :
  Forall (fun v => flatten v = leaves v) elems ->
  fold_left
    (fun acc v =>
       match v with
       | JArray _ => acc ++ flatten v
       | JLeaf p => acc ++ [p]
       end) elems acc
  = acc ++ flat_map leaves elems.
Proof.
  intros H. revert acc. induction H as [|v elems Hv _ IH]; intros acc; simpl.
  - now rewrite app_nil_r.
  - rewrite IH, app_assoc. f_equal.
    destruct v as [p | l]; [reflexivity | now rewrite Hv].
Qed.

(** [flatten] yields the non-array values of its argument, left to right. *)
Lemma flatten_leaves (v : JSValue) : flatten v = leaves v.
Proof.
  induction v as [p | elems IH] using JSValue_nested_ind.
  - reflexivity.
  - cbn [flatten leaves]. now rewrite (flatten_reduce [] IH).
Qed.

Lemma flatten_JArray (elems : list JSValue) :
  flatten (JArray elems) = flat_map flatten elems.
Proof.
  rewrite flatten_leaves. cbn [leaves].
  induction elems as [|v elems IH]; simpl; [reflexivity|].
  now rewrite IH, flatten_leaves.
Qed.

Section Cleaning.

Variable StringToNumber : JSString -> number.

Lemma posNums_In (rawFlat : list JSPrim) (z : Z) :
  In z (posNums StringToNumber rawFlat) <->
  exists p, In p rawFlat
            /\ Number_isFinite (Number StringToNumber p) = true
            /\ Math_floor (Number StringToNumber p) = z.
Proof.
  unfold posNums. induction rawFlat as [|q l IH]; simpl.
  - split; [tauto | intros (p & [] & _)].
  - destruct (Number_isFinite (Number StringToNumber q)) eqn:E; simpl; rewrite IH.
    + split.
      * intros [<- | (p & Hp & Hf & Hz)]; [exists q | exists p]; auto.
      * intros (p & [-> | Hp] & Hf & Hz); [now left | right; exists p; auto].
    + split.
      * intros (p & Hp & Hf & Hz). exists p; auto.
      * intros (p & [-> | Hp] & Hf & Hz); [congruence | exists p; auto].
Qed.

Lemma uniquePos_In (positions : JSValue) (z : Z) :
  In z (uniquePos StringToNumber positions) <->
  In z (posNums StringToNumber (flatten positions)).
Proof. unfold uniquePos. now rewrite Array_sort_In, Array_from_Set_In. Qed.

Lemma uniquePos_sorted (positions : JSValue) :
  StronglySorted Z.lt (uniquePos StringToNumber positions).
Proof. apply Array_sort_sorted, Array_from_Set_NoDup. Qed.

(** The cleaned list depends only on which values occur in the flattened
    input, not on their order, multiplicity or nesting. *)
Lemma uniquePos_ext (a b : JSValue) :
  (forall p, In p (flatten a) <-> In p (flatten b)) ->
  uniquePos StringToNumber a = uniquePos StringToNumber b.
Proof.
  intros H. apply strictly_sorted_ext; try apply uniquePos_sorted.
  intros z. rewrite !uniquePos_In, !posNums_In.
  split; intros (p & Hp & Hrest); exists p; split; try apply H; auto.
Qed.

End Cleaning.

(** ** Numbers: comparison and floor against the real values *)

Lemma two_power_pos (e : Z) : (0 < (2 # 1) ^ e)%Q.
Proof. apply Qpower_0_lt. reflexivity. Qed.

Lemma two_power_split (e k : Z) :
  ((2 # 1) ^ (e - k) == (2 # 1) ^ e * (2 # 1) ^ (- k))%Q.
Proof.
  replace (e - k) with (e + - k) by lia.
  apply Qpower_plus. discriminate.
Qed.

Lemma scaled_value (s e k : Z) :
  k <= e ->
  (inject_Z (s * 2 ^ (e - k)) == inject_Z s * (2 # 1) ^ e * (2 # 1) ^ (- k))%Q.
Proof.
  intros H. rewrite inject_Z_mult, Zpower_Qpower by lia.
  change (inject_Z 2) with (2 # 1). rewrite two_power_split. ring.
Qed.

Lemma compare_finite_le (x y : number) :
  compare_finite x y <> Gt <-> (value x <= value y)%Q.
Proof.
  unfold compare_finite, value.
  set (k := Z.min (exponent x) (exponent y)).
  rewrite Z.compare_le_iff, Zle_Qle.
  rewrite !scaled_value by (subst k; lia).
  apply Qmult_le_r, two_power_pos.
Qed.

Lemma value_zero (s : bool) : (value (S754_zero s) == 0)%Q.
Proof. reflexivity. Qed.

Lemma value_of_int (z : Z) : (value (of_int z) == inject_Z z)%Q.
Proof. destruct z; unfold value; simpl; ring. Qed.

Lemma number_le_finite (x y : number) :
  Number_isFinite x = true -> Number_isFinite y = true ->
  (number_le x y = true <-> (value x <= value y)%Q).
Proof.
  intros Hx Hy. rewrite <- compare_finite_le.
  destruct x, y; try discriminate;
    cbv beta iota delta [number_le number_compare];
    destruct (compare_finite _ _); split; congruence.
Qed.

Lemma real_of_finite (x : number) :
  Number_isFinite x = true -> exists q, real_of x = ext_real q /\ (q == value x)%Q.
Proof.
  destruct x; try discriminate; intros _; eexists; split; reflexivity.
Qed.

(** Numeric [<=] is the order of the extended reals; with NaN it is false. *)
Lemma number_le_spec (x y : number) :
  number_le x y = true <-> ext_le (real_of x) (real_of y).
Proof.
  destruct (Number_isFinite x) eqn:Fx, (Number_isFinite y) eqn:Fy.
  - rewrite number_le_finite by assumption.
    destruct (real_of_finite x Fx) as (p & -> & Hp).
    destruct (real_of_finite y Fy) as (q & -> & Hq).
    simpl. now rewrite Hp, Hq.
  - destruct x, y; try discriminate; try destruct s; try destruct s0;
      cbv beta iota delta [number_le number_compare real_of ext_le];
      intuition congruence.
  - destruct x, y; try discriminate; try destruct s; try destruct s0;
      cbv beta iota delta [number_le number_compare real_of ext_le];
      intuition congruence.
  - destruct x, y; try discriminate; try destruct s; try destruct s0;
      cbv beta iota delta [number_le number_compare real_of ext_le];
      intuition congruence.
Qed.

Lemma real_of_of_int (z : Z) :
  exists q, real_of (of_int z) = ext_real q /\ (q == inject_Z z)%Q.
Proof.
  destruct (real_of_finite (of_int z)) as (q & E & Hq).
  - now destruct z.
  - exists q. split; [assumption|]. now rewrite Hq, value_of_int.
Qed.

(** The residue test of [highlightDomains] is membership in the closed
    interval between the two bounds. *)
Lemma residueTest_in_range (residueStart residueEnd : number) (z : Z) :
  number_ge (of_int z) residueStart && number_le (of_int z) residueEnd = true
  <-> in_range residueStart residueEnd z.
Proof.
  unfold number_ge, in_range.
  rewrite andb_true_iff, !number_le_spec.
  destruct (real_of_of_int z) as (q & -> & Hq).
  destruct (real_of residueStart), (real_of residueEnd); simpl;
    rewrite ?Hq; tauto.
Qed.

(** For integral bounds the interval is the integer interval. *)
Lemma in_range_of_int (a b z : Z) :
  in_range (of_int a) (of_int b) z <-> a <= z <= b.
Proof.
  unfold in_range.
  destruct (real_of_of_int a) as (p & -> & Hp).
  destruct (real_of_of_int b) as (q & -> & Hq).
  simpl. rewrite Hp, Hq, <- !Zle_Qle. tauto.
Qed.

(** [Math.floor] is the floor of the real value. *)
Lemma Math_floor_spec (x : number) :
  (inject_Z (Math_floor x) <= value x)%Q
  /\ (value x < inject_Z (Math_floor x + 1))%Q.
Proof.
  unfold Math_floor, value.
  set (m := significand x). set (e := exponent x).
  destruct (Z.le_gt_cases 0 e) as [He | He].
  - rewrite Z.shiftl_mul_pow2 by assumption.
    assert (inject_Z m * (2 # 1) ^ e == inject_Z (m * 2 ^ e))%Q as ->.
    { rewrite inject_Z_mult, Zpower_Qpower by assumption. reflexivity. }
    rewrite <- Zle_Qle, <- Zlt_Qlt. lia.
  - assert (Z.shiftl m e = m / 2 ^ (- e)) as ->.
    { rewrite <- (Z.opp_involutive e) at 1.
      rewrite Z.shiftl_opp_r. apply Z.shiftr_div_pow2. lia. }
    set (d := 2 ^ (- e)).
    assert (0 < d) as Hd by (subst d; apply Z.pow_pos_nonneg; lia).
    assert (0 < inject_Z d)%Q as HdQ by (rewrite Zlt_Qlt in Hd; exact Hd).
    assert (inject_Z m * (2 # 1) ^ e * inject_Z d == inject_Z m)%Q as Hv.
    { subst d. rewrite Zpower_Qpower by lia. change (inject_Z 2) with (2 # 1).
      rewrite <- Qmult_assoc, <- Qpower_plus by discriminate.
      replace (e + - e) with 0 by lia. simpl. ring. }
    split.
    + apply (Qmult_le_r _ _ (inject_Z d) HdQ).
      rewrite Hv, <- inject_Z_mult, <- Zle_Qle.
      rewrite Z.mul_comm. apply Z.mul_div_le. assumption.
    + apply (Qmult_lt_r _ _ (inject_Z d) HdQ).
      rewrite Hv, <- inject_Z_mult, <- Zlt_Qlt.
      rewrite Z.mul_comm. apply Z.mul_succ_div_gt. assumption.
Qed.

(** ** The highlight functions, case by case *)

Ltac run_body :=
  cbv beta iota delta
    [bind emit return_ throw ret get_overpaintLayers set_overpaintLayers
     get_plugin get_MY_MODULE_NS overpaintLayers_push overpaintLayers_truncate
     completion world_after events fst snd].

Lemma default_color_valid : isNaN (colorValue_of None) = false.
Proof. reflexivity. Qed.

Lemma highlightDomains_no_structure (plugin : PluginContext)
    (residueStart residueEnd : number) (colorHex : option JSString) (w : World) :
  first_structure_data plugin = None ->
  highlightDomains plugin residueStart residueEnd colorHex w
  = (Return, w, [console_warn "No Structure loaded" []]).
Proof. intros H. unfold highlightDomains. rewrite H. reflexivity. Qed.

Lemma highlightDomains_invalid_color (plugin : PluginContext) (structure : Structure)
    (residueStart residueEnd : number) (colorHex : option JSString) (w : World) :
  first_structure_data plugin = Some structure ->
  isNaN (colorValue_of colorHex) = true ->
  highlightDomains plugin residueStart residueEnd colorHex w
  = (Return, w,
     [console_warn "Invalid color:"
        [arg_string (with_default colorHex (str "#ff0000"))]]).
Proof.
  intros H Hc. unfold highlightDomains. rewrite H.
  unfold colorValue_of, hex_of in Hc. rewrite Hc. reflexivity.
Qed.

(** Past both guards the record is pushed; the builder is then committed
    when the tree has the cartoon node, and [to(cartoonRef)] throws when it
    has not. *)
Lemma highlightDomains_pushed (plugin : PluginContext) (structure : Structure)
    (residueStart residueEnd : number) (colorHex : option JSString) (w : World) :
  first_structure_data plugin = Some structure ->
  isNaN (colorValue_of colorHex) = false ->
  highlightDomains plugin residueStart residueEnd colorHex w
  = (if has_node plugin cartoonRef then Normal tt
     else Throw (CouldNotFindNode cartoonRef),
     with_layers w
       (overpaintLayers w
        ++ [domain_layer structure residueStart residueEnd (colorValue_of colorHex)]),
     if has_node plugin cartoonRef
     then [overpaint_commit layers_overpaintLayers] else []).
Proof.
  intros H Hc. unfold highlightDomains, build_to. rewrite H.
  unfold colorValue_of, hex_of in Hc. rewrite Hc.
  destruct (has_node plugin cartoonRef); reflexivity.
Qed.

Lemma highlightDomains_success (plugin : PluginContext) (structure : Structure)
    (residueStart residueEnd : number) (colorHex : option JSString) (w : World) :
  first_structure_data plugin = Some structure ->
  isNaN (colorValue_of colorHex) = false ->
  has_node plugin cartoonRef = true ->
  highlightDomains plugin residueStart residueEnd colorHex w
  = (Normal tt,
     with_layers w
       (overpaintLayers w
        ++ [domain_layer structure residueStart residueEnd (colorValue_of colorHex)]),
     [overpaint_commit layers_overpaintLayers]).
Proof.
  intros H Hc Hn. rewrite (highlightDomains_pushed _ _ _ _ w H Hc), Hn.
  reflexivity.
Qed.

(** The cases are exhaustive. *)
Lemma highlightDomains_cases (plugin : PluginContext)
    (residueStart residueEnd : number) (colorHex : option JSString) (w : World) :
  let r := highlightDomains plugin residueStart residueEnd colorHex w in
  (completion r = Return /\ world_after r = w
   /\ exists text args, events r = [console_warn text args])
  \/ (exists structure,
        first_structure_data plugin = Some structure
        /\ isNaN (colorValue_of colorHex) = false
        /\ world_after r
           = with_layers w
               (overpaintLayers w
                ++ [domain_layer structure residueStart residueEnd
                      (colorValue_of colorHex)])
        /\ ((has_node plugin cartoonRef = true
             /\ completion r = Normal tt
             /\ events r = [overpaint_commit layers_overpaintLayers])
            \/ (has_node plugin cartoonRef = false
                /\ completion r = Throw (CouldNotFindNode cartoonRef)
                /\ events r = []))).
Proof.
  intros r. subst r.
  destruct (first_structure_data plugin) as [structure|] eqn:H.
  - destruct (isNaN (colorValue_of colorHex)) eqn:Hc.
    + left. rewrite (highlightDomains_invalid_color _ _ _ _ w H Hc).
      split; [reflexivity|]. split; [reflexivity|]. do 2 eexists. reflexivity.
    + right. exists structure. split; [reflexivity|]. split; [reflexivity|].
      rewrite (highlightDomains_pushed _ _ _ _ w H Hc).
      split; [reflexivity|].
      destruct (has_node plugin cartoonRef); [left | right]; repeat split.
  - left. rewrite (highlightDomains_no_structure _ _ _ _ w H).
    split; [reflexivity|]. split; [reflexivity|]. do 2 eexists. reflexivity.
Qed.

(** The clear functions empty the cache first; the builder is committed
    when the tree has the cartoon node, and [to(cartoonRef)] throws when it
    has not. *)
Lemma clearPaint_run (plugin : PluginContext) (w : World) :
  clearPaint plugin w
  = (if has_node plugin cartoonRef then Normal tt
     else Throw (CouldNotFindNode cartoonRef),
     with_layers w [],
     if has_node plugin cartoonRef
     then [overpaint_commit (layers_literal [])] else []).
Proof.
  unfold clearPaint, build_to.
  destruct (has_node plugin cartoonRef); reflexivity.
Qed.

Lemma clearOverlays_run (plugin : PluginContext) (w : World) :
  clearOverlays plugin w
  = (if has_node plugin cartoonRef then Normal tt
     else Throw (CouldNotFindNode cartoonRef),
     with_layers w [],
     if has_node plugin cartoonRef
     then [overpaint_commit (layers_literal []);
           commit [op_delete (str "mutations")];
           console_log "Overpaint layers cleared" []]
     else []).
Proof.
  unfold clearOverlays, build_to.
  destruct (has_node plugin cartoonRef); reflexivity.
Qed.

Section Sphere.

Variable StringToNumber : JSString -> number.

Lemma sphere_no_positions (plugin : PluginContext) (positions : JSValue)
    (colorHex : option JSString) (w : World) :
  uniquePos StringToNumber positions = [] ->
  highlightResidueWithSphere StringToNumber plugin positions colorHex w
  = (Return, w,
     [console_log "cleaned integer positions:" [arg_positions []];
      console_warn "No valid positions after cleaning; aborting highlight." []]).
Proof. intros H. unfold highlightResidueWithSphere. rewrite H. reflexivity. Qed.

Lemma sphere_invalid_color (plugin : PluginContext) (positions : JSValue)
    (colorHex : option JSString) (w : World) :
  uniquePos StringToNumber positions <> [] ->
  isNaN (colorValue_of colorHex) = true ->
  highlightResidueWithSphere StringToNumber plugin positions colorHex w
  = (Return, w,
     [console_log "cleaned integer positions:"
        [arg_positions (uniquePos StringToNumber positions)];
      console_warn "Invalid color:"
        [arg_string (with_default colorHex (str "#ff0000"))]]).
Proof.
  intros H Hc. unfold highlightResidueWithSphere.
  destruct (uniquePos StringToNumber positions) as [|z l]; [congruence|].
  unfold colorValue_of, hex_of in Hc. run_body. cbn [List.length Nat.eqb].
  rewrite Hc. reflexivity.
Qed.

(** With usable positions and colour, the function reads
    [structures[0].cell.obj.data] without a guard. *)
Lemma sphere_no_structure (plugin : PluginContext) (positions : JSValue)
    (colorHex : option JSString) (w : World) :
  uniquePos StringToNumber positions <> [] ->
  isNaN (colorValue_of colorHex) = false ->
  first_structure_data plugin = None ->
  exists message,
    highlightResidueWithSphere StringToNumber plugin positions colorHex w
    = (Throw (TypeError message), w,
       [console_log "cleaned integer positions:"
          [arg_positions (uniquePos StringToNumber positions)]]).
Proof.
  intros H Hc Hs. unfold highlightResidueWithSphere.
  destruct (uniquePos StringToNumber positions) as [|z l]; [congruence|].
  unfold colorValue_of, hex_of in Hc. run_body. cbn [List.length Nat.eqb].
  rewrite Hc. unfold first_structure_data in Hs.
  destruct (nth_error (structures plugin) 0) as [structCell|].
  - destruct (obj (cell structCell)); [discriminate|]. eexists. reflexivity.
  - eexists. reflexivity.
Qed.

Lemma sphere_success (plugin : PluginContext) (positions : JSValue)
    (colorHex : option JSString) (w : World) (structure : Structure) :
  uniquePos StringToNumber positions <> [] ->
  isNaN (colorValue_of colorHex) = false ->
  first_structure_data plugin = Some structure ->
  exists ops,
    highlightResidueWithSphere StringToNumber plugin positions colorHex w
    = (Normal tt, w,
       [console_log "cleaned integer positions:"
          [arg_positions (uniquePos StringToNumber positions)];
        commit ops])
    /\ flat_map op_residue_sets ops = [uniquePos StringToNumber positions]
    /\ flat_map op_layers ops = [].
Proof.
  intros H Hc Hs. unfold highlightResidueWithSphere.
  destruct (uniquePos StringToNumber positions) as [|z l]; [congruence|].
  unfold colorValue_of, hex_of in Hc. run_body. cbn [List.length Nat.eqb].
  rewrite Hc. unfold first_structure_data in Hs.
  destruct (nth_error (structures plugin) 0) as [structCell|]; [|discriminate].
  destruct (obj (cell structCell)); [|discriminate].
  eexists. split; [reflexivity|]. split; reflexivity.
Qed.

End Sphere.

Lemma sphere_cases (StringToNumber : JSString -> number) (plugin : PluginContext)
    (positions : JSValue) (colorHex : option JSString) (w : World) :
  let r := highlightResidueWithSphere StringToNumber plugin positions colorHex w in
  let cleaned := uniquePos StringToNumber positions in
  (r = (Return, w,
        [console_log "cleaned integer positions:" [arg_positions []];
         console_warn "No valid positions after cleaning; aborting highlight." []])
   /\ cleaned = [])
  \/ (r = (Return, w,
           [console_log "cleaned integer positions:" [arg_positions cleaned];
            console_warn "Invalid color:"
              [arg_string (with_default colorHex (str "#ff0000"))]])
      /\ cleaned <> [] /\ isNaN (colorValue_of colorHex) = true)
  \/ ((exists message,
         r = (Throw (TypeError message), w,
              [console_log "cleaned integer positions:" [arg_positions cleaned]]))
      /\ cleaned <> [] /\ isNaN (colorValue_of colorHex) = false
      /\ first_structure_data plugin = None)
  \/ ((exists ops,
         r = (Normal tt, w,
              [console_log "cleaned integer positions:" [arg_positions cleaned];
               commit ops])
         /\ flat_map op_residue_sets ops = [cleaned]
         /\ flat_map op_layers ops = [])
      /\ cleaned <> [] /\ isNaN (colorValue_of colorHex) = false
      /\ first_structure_data plugin <> None).
Proof.
  intros r cleaned. subst r cleaned.
  destruct (list_eq_dec Z.eq_dec (uniquePos StringToNumber positions) [])
    as [He | Hne].
  - left. split; [now apply sphere_no_positions | assumption].
  - right. destruct (isNaN (colorValue_of colorHex)) eqn:Hc.
    + left. split; [now apply sphere_invalid_color | auto].
    + right. destruct (first_structure_data plugin) as [structure|] eqn:Hs.
      * right. split; [now apply sphere_success with structure | ].
        repeat split; auto; discriminate.
      * left. split; [now apply sphere_no_structure | auto].
Qed.

(** ** The claims *)

(** C1.  A call of [highlightDomains] or [highlightResidueWithSphere] whose
    colour string, after an optional leading ['#'] is stripped, parses to NaN
    returns early without throwing, after a console warning; it commits no
    state builder, appends no overpaint layer and leaves the whole module
    state as it was. *)
Theorem invalid_color_aborts (StringToNumber : JSString -> number)
    (plugin : PluginContext) (colorHex : JSString) (w : World) :
  isNaN (parseInt (hex_of colorHex) 16) = true ->
  (forall residueStart residueEnd,
     let r := highlightDomains plugin residueStart residueEnd (Some colorHex) w in
     completion r = Return
     /\ existsb is_warn (events r) = true
     /\ existsb is_commit (events r) = false
     /\ overpaintLayers (world_after r) = overpaintLayers w
     /\ world_after r = w)
  /\ (forall positions,
        let r := highlightResidueWithSphere StringToNumber plugin positions
                   (Some colorHex) w in
        completion r = Return
        /\ existsb is_warn (events r) = true
        /\ existsb is_commit (events r) = false
        /\ overpaintLayers (world_after r) = overpaintLayers w
        /\ world_after r = w).
Proof.
  intros Hc. change (isNaN (colorValue_of (Some colorHex)) = true) in Hc. split.
  - intros residueStart residueEnd r. subst r.
    destruct (first_structure_data plugin) as [structure|] eqn:Hs.
    + rewrite (highlightDomains_invalid_color _ _ _ _ w Hs Hc). repeat split.
    + rewrite (highlightDomains_no_structure _ _ _ _ w Hs). repeat split.
  - intros positions r. subst r.
    destruct (sphere_cases StringToNumber plugin positions (Some colorHex) w)
      as [[E _] | [[E _] | [(_ & _ & F & _) | (_ & _ & F & _)]]];
      try congruence; rewrite E; repeat split.
Qed.

Lemma invalid_color_aborts_witness :
  isNaN (parseInt (hex_of (str "#zz")) 16) = true
  /\ completion (highlightDomains loaded_plugin (of_int 1) (of_int 2)
                   (Some (str "#zz")) (world_with [sample_layer] loaded_plugin))
     = Return
  /\ overpaintLayers
       (world_after
          (highlightResidueWithSphere not_numeric loaded_plugin
             (JArray [pos 3]) (Some (str "#zz"))
             (world_with [sample_layer] loaded_plugin)))
     = [sample_layer].
Proof.
  assert (isNaN (parseInt (hex_of (str "#zz")) 16) = true) as H by reflexivity.
  split; [exact H|].
  destruct (invalid_color_aborts not_numeric loaded_plugin (str "#zz")
              (world_with [sample_layer] loaded_plugin) H) as [Hd Hs].
  split.
  - exact (proj1 (Hd (of_int 1) (of_int 2))).
  - exact (proj1 (proj2 (proj2 (proj2 (Hs (JArray [pos 3])))))).
Defined.

(** C2, as stated, fails: a [highlightDomains] call whose colour does not
    parse appends nothing. *)
Lemma highlightDomains_appends_counterexample :
  ~ exists layer,
      overpaintLayers
        (world_after
           (highlightDomains loaded_plugin (of_int 1) (of_int 2)
              (Some (str "#zz")) (world_with [sample_layer] loaded_plugin)))
      = overpaintLayers (world_with [sample_layer] loaded_plugin) ++ [layer].
Proof. intros [layer H]. vm_compute in H. discriminate H. Qed.

(** C2, amended.  A [highlightDomains] call that finds a loaded structure
    and whose colour parses appends exactly one record at the end of the
    overpaint cache; the records cached before keep their places. *)
Theorem highlightDomains_appends_one_layer (plugin : PluginContext)
    (structure : Structure) (residueStart residueEnd : number)
    (colorHex : option JSString) (w : World) :
  first_structure_data plugin = Some structure ->
  isNaN (colorValue_of colorHex) = false ->
  let after :=
    overpaintLayers
      (world_after (highlightDomains plugin residueStart residueEnd colorHex w)) in
  (exists layer, after = overpaintLayers w ++ [layer])
  /\ List.length after = S (List.length (overpaintLayers w))
  /\ firstn (List.length (overpaintLayers w)) after = overpaintLayers w.
Proof.
  intros Hs Hc after. subst after.
  rewrite (highlightDomains_pushed _ _ _ _ w Hs Hc). run_body.
  cbn [with_layers overpaintLayers]. split; [eauto|]. split.
  - rewrite length_app. simpl. lia.
  - rewrite firstn_app, Nat.sub_diag, firstn_all. simpl. apply app_nil_r.
Qed.

Lemma highlightDomains_appends_one_layer_witness :
  first_structure_data loaded_plugin = Some sample_structure
  /\ isNaN (colorValue_of (Some (str "#00ff00"))) = false
  /\ List.length
       (overpaintLayers
          (world_after
             (highlightDomains loaded_plugin (of_int 2) (of_int 3)
                (Some (str "#00ff00")) (world_with [sample_layer] loaded_plugin))))
     = 2%nat.
Proof.
  assert (first_structure_data loaded_plugin = Some sample_structure) as Hs
    by reflexivity.
  assert (isNaN (colorValue_of (Some (str "#00ff00"))) = false) as Hc
    by reflexivity.
  split; [exact Hs|]. split; [exact Hc|].
  exact (proj1 (proj2 (highlightDomains_appends_one_layer loaded_plugin
                         (of_int 2) (of_int 3) (Some (str "#00ff00"))
                         (world_with [sample_layer] loaded_plugin) Hs Hc))).
Defined.

(** A [highlightDomains] call that returns early leaves the cache alone. *)
Lemma highlightDomains_aborted_keeps_cache (plugin : PluginContext)
    (residueStart residueEnd : number) (colorHex : option JSString) (w : World) :
  completion (highlightDomains plugin residueStart residueEnd colorHex w) = Return ->
  world_after (highlightDomains plugin residueStart residueEnd colorHex w) = w.
Proof.
  intros H.
  destruct (highlightDomains_cases plugin residueStart residueEnd colorHex w)
    as [(_ & E & _) | (structure & _ & _ & _ & [(_ & E & _) | (_ & E & _)])];
    [exact E | rewrite E in H; discriminate H | rewrite E in H; discriminate H].
Qed.

(** C3, as stated, fails: [resetCamera] does not touch the cache. *)
Lemma resetCamera_clears_counterexample :
  overpaintLayers
    (world_after (resetCamera loaded_plugin (world_with [sample_layer] loaded_plugin)))
  <> [].
Proof. vm_compute. discriminate. Qed.

(** C3, amended.  [clearOverlays] and [clearPaint] leave the overpaint
    cache empty, whether they run to their end (as they do when the tree has
    the cartoon node) or fail at [to(cartoonRef)]; [resetCamera] runs to its
    end and leaves the cache as it was. *)
Theorem clear_commands_empty_cache (plugin : PluginContext) (w : World) :
  overpaintLayers (world_after (clearOverlays plugin w)) = []
  /\ overpaintLayers (world_after (clearPaint plugin w)) = []
  /\ (has_node plugin cartoonRef = true ->
      completion (clearOverlays plugin w) = Normal tt
      /\ completion (clearPaint plugin w) = Normal tt)
  /\ (completion (resetCamera plugin w) = Normal tt
      /\ overpaintLayers (world_after (resetCamera plugin w)) = overpaintLayers w).
Proof.
  rewrite clearOverlays_run, clearPaint_run.
  split; [reflexivity|]. split; [reflexivity|]. split.
  - intros Hnode. rewrite Hnode. split; reflexivity.
  - split; reflexivity.
Qed.

Lemma clear_commands_empty_cache_witness :
  has_node loaded_plugin cartoonRef = true
  /\ completion (clearOverlays loaded_plugin (world_with [sample_layer] loaded_plugin))
     = Normal tt
  /\ overpaintLayers
       (world_after (clearPaint bare_plugin (world_with [sample_layer] bare_plugin)))
     = [].
Proof.
  assert (has_node loaded_plugin cartoonRef = true) as H by reflexivity.
  split; [exact H|]. split.
  - exact (proj1 (proj1 (proj2 (proj2
             (clear_commands_empty_cache loaded_plugin
                (world_with [sample_layer] loaded_plugin)))) H)).
  - exact (proj1 (proj2
             (clear_commands_empty_cache bare_plugin
                (world_with [sample_layer] bare_plugin)))).
Defined.

(** C4.  The positions [highlightResidueWithSphere] queries hold each integer
    at most once and ascend strictly; they are exactly the floors of the
    finite numbers among the coerced non-array values of the input; every
    residue set the function hands to a selection expression is this list;
    and when the list is empty the function warns and returns early with no
    builder committed and the module state as it was. *)
Theorem cleaned_positions (StringToNumber : JSString -> number)
    (positions : JSValue) :
  let cleaned := uniquePos StringToNumber positions in
  NoDup cleaned
  /\ StronglySorted Z.lt cleaned
  /\ (forall z,
        In z cleaned <->
        exists p, In p (leaves positions)
                  /\ Number_isFinite (Number StringToNumber p) = true
                  /\ Math_floor (Number StringToNumber p) = z)
  /\ (forall plugin colorHex w,
        let r := highlightResidueWithSphere StringToNumber plugin positions
                   colorHex w in
        (forall s, In s (flat_map event_residue_sets (events r)) -> s = cleaned)
        /\ (cleaned = [] ->
            completion r = Return
            /\ existsb is_warn (events r) = true
            /\ existsb is_commit (events r) = false
            /\ world_after r = w)).
Proof.
  intros cleaned. subst cleaned. split; [|split; [|split]].
  - apply strictly_sorted_NoDup, uniquePos_sorted.
  - apply uniquePos_sorted.
  - intros z. now rewrite uniquePos_In, posNums_In, flatten_leaves.
  - intros plugin colorHex w r. subst r.
    destruct (sphere_cases StringToNumber plugin positions colorHex w)
      as [[E H] | [(E & H & _) | [((m & E) & H & _) | ((ops & E & Hr & _) & H & _)]]];
      rewrite E; run_body; (split; [| intros He; try congruence; repeat split]).
    + intros s [].
    + intros s [].
    + intros s [].
    + cbn [flat_map event_residue_sets app]. rewrite Hr. simpl.
      intros s [<- | []]. reflexivity.
Qed.

Lemma cleaned_positions_witness :
  uniquePos not_numeric (JArray [JLeaf JUndefined; JArray []]) = []
  /\ completion
       (highlightResidueWithSphere not_numeric loaded_plugin
          (JArray [JLeaf JUndefined; JArray []]) None
          (world_with [sample_layer] loaded_plugin))
     = Return.
Proof.
  assert (uniquePos not_numeric (JArray [JLeaf JUndefined; JArray []]) = [])
    as H by reflexivity.
  split; [exact H|].
  destruct (cleaned_positions not_numeric (JArray [JLeaf JUndefined; JArray []]))
    as (_ & _ & _ & Hrun).
  exact (proj1 (proj2 (Hrun loaded_plugin None
                         (world_with [sample_layer] loaded_plugin)) H)).
Defined.

(** A run on nested, repeated and fractional input. *)
Example uniquePos_sample :
  uniquePos not_numeric
    (JArray [JArray [pos 5; pos 3];
             JArray [pos 5; JLeaf (JNumber S754_nan);
                     JLeaf (JNumber (S754_finite false 5 (-1)));
                     JLeaf (JNumber (S754_finite true 5 (-1)));
                     JLeaf (JNumber (S754_infinity false));
                     JLeaf (JBoolean true); JLeaf JNull]])
  = [-3; 0; 1; 2; 3; 5].
Proof. reflexivity. Qed.

(** C10.  Two inputs whose flattened values are the same up to order and
    repetition (in particular two inputs that flatten to the same multiset,
    or that differ by the order, the duplication or the nesting of their
    values) clean to the same position list, and
    [highlightResidueWithSphere] then behaves the same on both. *)
Theorem cleaning_invariant (StringToNumber : JSString -> number)
    (a b : JSValue) :
  (forall p, In p (flatten a) <-> In p (flatten b)) ->
  uniquePos StringToNumber a = uniquePos StringToNumber b
  /\ forall plugin colorHex w,
       highlightResidueWithSphere StringToNumber plugin a colorHex w
       = highlightResidueWithSphere StringToNumber plugin b colorHex w.
Proof.
  intros H.
  assert (uniquePos StringToNumber a = uniquePos StringToNumber b) as E
    by now apply uniquePos_ext.
  split; [exact E|].
  intros plugin colorHex w. unfold highlightResidueWithSphere. now rewrite E.
Qed.

Lemma cleaning_invariant_witness :
  (forall p,
     In p (flatten (JArray [pos 5; JArray [pos 3; pos 5]; pos 3]))
     <-> In p (flatten (JArray [JArray [JArray [pos 3]]; pos 5])))
  /\ uniquePos not_numeric (JArray [pos 5; JArray [pos 3; pos 5]; pos 3])
     = uniquePos not_numeric (JArray [JArray [JArray [pos 3]]; pos 5]).
Proof.
  assert (forall p,
            In p (flatten (JArray [pos 5; JArray [pos 3; pos 5]; pos 3]))
            <-> In p (flatten (JArray [JArray [JArray [pos 3]]; pos 5]))) as H
    by (intros p; simpl; tauto).
  split; [exact H|].
  exact (proj1 (cleaning_invariant not_numeric _ _ H)).
Defined.

(** Inputs that flatten to the same multiset are a case of it. *)
Lemma cleaning_permutation (StringToNumber : JSString -> number)
    (a b : JSValue) :
  Permutation (flatten a) (flatten b) ->
  uniquePos StringToNumber a = uniquePos StringToNumber b.
Proof.
  intros H. apply uniquePos_ext. intros p. split; apply Permutation_in;
    [assumption | now apply Permutation_sym].
Qed.

(** Repeating a value, or wrapping the input in one more array, changes
    nothing (the handler passes [[msg.positions]]). *)
Lemma uniquePos_duplicate (StringToNumber : JSString -> number)
    (v : JSValue) (elems : list JSValue) :
  uniquePos StringToNumber (JArray (v :: v :: elems))
  = uniquePos StringToNumber (JArray (v :: elems)).
Proof.
  apply uniquePos_ext. intros p. rewrite !flatten_JArray. simpl.
  rewrite !in_app_iff. tauto.
Qed.

Lemma uniquePos_wrap (StringToNumber : JSString -> number) (v : JSValue) :
  uniquePos StringToNumber (JArray [v]) = uniquePos StringToNumber v.
Proof.
  apply uniquePos_ext. intros p. rewrite flatten_JArray. simpl.
  now rewrite app_nil_r.
Qed.

(** ** Handlers and the remaining functions *)

Lemma handler_ready (StringToNumber : JSString -> number) (msg : Message)
    (w : World) (p : PluginContext) :
  plugin w = Some p ->
  handler StringToNumber msg w = run StringToNumber (operation_of_message p msg) w.
Proof.
  intros H. unfold handler, bind, get_plugin. rewrite H.
  destruct msg; cbn [operation_of_message run app];
    match goal with
    | |- match ?c with _ => _ end = _ => destruct c as [[r w'] evs]
    end; reflexivity.
Qed.

Lemma handler_not_ready (StringToNumber : JSString -> number) (msg : Message)
    (w : World) :
  plugin w = None ->
  exists text, handler StringToNumber msg w = (Return, w, [console_warn text []]).
Proof.
  intros H. unfold handler, bind, get_plugin. rewrite H.
  destruct msg; eexists; reflexivity.
Qed.

Lemma zoomToResidue_cases (plugin : PluginContext) (residueNumber : number)
    (chainId : option JSString) (w : World) :
  let r := zoomToResidue plugin residueNumber chainId w in
  world_after r = w
  /\ existsb is_commit (events r) = false
  /\ ((completion r = Return /\ events r = [console_warn "No structure loaded" []]
       /\ first_structure_data plugin = None)
      \/ (completion r = Normal tt /\ first_structure_data plugin <> None)).
Proof.
  intros r. subst r. unfold zoomToResidue.
  destruct (first_structure_data plugin) as [structure|].
  - repeat split. right. split; [reflexivity | discriminate].
  - repeat split. left. repeat split.
Qed.

Lemma hover_subscriber_world (loci : Loci) (w : World) :
  world_after (hover_subscriber loci w) = w
  /\ (forall e, completion (hover_subscriber loci w) <> Throw e)
  /\ existsb is_commit (events (hover_subscriber loci w)) = false.
Proof.
  unfold hover_subscriber.
  destruct (negb (StructureElement_Loci_is loci)
            || (List.length (loci_elements loci) =? 0)%nat).
  - repeat split. discriminate.
  - destruct (getResidueInfo loci); repeat split; discriminate.
Qed.

(** What each operation does to the overpaint cache and the rest of the
    module state. *)
Lemma run_world (StringToNumber : JSString -> number) (op : Operation) (w : World) :
  world_after (run StringToNumber op w) = w
  \/ (exists structure residueStart residueEnd colorValue,
        isNaN colorValue = false
        /\ world_after (run StringToNumber op w)
           = with_layers w
               (overpaintLayers w
                ++ [domain_layer structure residueStart residueEnd colorValue]))
  \/ world_after (run StringToNumber op w) = with_layers w [].
Proof.
  assert (forall p o,
            (exists q r s t, o = call_highlightDomains q r s t)
            \/ (exists q r s, o = call_highlightResidueWithSphere q r s)
            \/ (exists q r s, o = call_zoomToResidue q r s)
            \/ o = call_clearOverlays p \/ o = call_clearPaint p
            \/ o = call_clearSpheres p \/ o = call_resetCamera p ->
            world_after (run StringToNumber o w) = w
            \/ (exists structure residueStart residueEnd colorValue,
                  isNaN colorValue = false
                  /\ world_after (run StringToNumber o w)
                     = with_layers w
                         (overpaintLayers w
                          ++ [domain_layer structure residueStart residueEnd
                                colorValue]))
            \/ world_after (run StringToNumber o w) = with_layers w []) as Hcalls.
  { intros p o
      [(q & r & s & t & ->) | [(q & r & s & ->) | [(q & r & s & ->) |
       [-> | [-> | [-> | ->]]]]]]; cbn [run].
    - destruct (highlightDomains_cases q r s t w)
        as [(_ & E & _) | (structure & _ & Hc & E & _)].
      + now left.
      + right. left. exists structure, r, s, (colorValue_of t).
        split; [exact Hc | exact E].
    - left.
      destruct (sphere_cases StringToNumber q r s w)
        as [[E _] | [[E _] | [[[m E] _] | [(ops & E & _) _]]]];
        now rewrite E.
    - left. apply zoomToResidue_cases.
    - right. right. now rewrite clearOverlays_run.
    - right. right. now rewrite clearPaint_run.
    - left. reflexivity.
    - left. reflexivity. }
  destruct op as [q r s t | q r s | q r s | q | q | q | q | msg | loci];
    try (apply (Hcalls q); eauto 12; fail).
  - cbn [run]. destruct (plugin w) as [p|] eqn:Hp.
    + rewrite (handler_ready _ _ _ Hp). apply (Hcalls p).
      destruct msg; cbn [operation_of_message]; eauto 12.
    + destruct (handler_not_ready StringToNumber msg w Hp) as [text E].
      rewrite E. now left.
  - left. apply hover_subscriber_world.
Qed.

(** X11.  Every record ever cached has a colour that is a number and a [clear]
    flag that is false: the property holds after any sequence of operations
    if it holds before. *)
Lemma cache_records_invariant (StringToNumber : JSString -> number)
    (ops : list Operation) (w : World) :
  Forall painted (overpaintLayers w) ->
  Forall painted (overpaintLayers (run_all StringToNumber ops w)).
Proof.
  revert w. induction ops as [|op ops IH]; intros w H; cbn [run_all].
  - exact H.
  - apply IH.
    destruct (run_world StringToNumber op w)
      as [E | [(structure & r & s & c & Hc & E) | E]]; rewrite E.
    + exact H.
    + cbn [with_layers overpaintLayers]. apply Forall_app. split; [exact H|].
      constructor; [|constructor]. split; [reflexivity | exact Hc].
    + constructor.
Qed.

(** C5.  A [highlightDomains] call that runs to its end commits one builder
    whose overpaint transform receives the cache array itself, so that the
    layers applied are the cached records in the order of their appending,
    the new record last; and every operation leaves the cache as it was,
    appends one record at its end, or empties it. *)
Theorem overpaint_layers_follow_cache (StringToNumber : JSString -> number) :
  (forall plugin residueStart residueEnd colorHex w,
     let r := highlightDomains plugin residueStart residueEnd colorHex w in
     completion r = Normal tt ->
     events r = [overpaint_commit layers_overpaintLayers]
     /\ flat_map event_layers (events r) = [layers_overpaintLayers]
     /\ (forall i,
           nth_error (deref (world_after r) layers_overpaintLayers) i
           = nth_error (overpaintLayers (world_after r)) i)
     /\ exists layer,
          deref (world_after r) layers_overpaintLayers
          = overpaintLayers w ++ [layer])
  /\ (forall op w,
        let before := overpaintLayers w in
        let after := overpaintLayers (world_after (run StringToNumber op w)) in
        after = before
        \/ (exists layer, after = before ++ [layer])
        \/ after = []).
Proof.
  split.
  - intros plugin residueStart residueEnd colorHex w r Hr. subst r.
    destruct (highlightDomains_cases plugin residueStart residueEnd colorHex w)
      as [(E & _) | (structure & _ & _ & Ew & [(_ & _ & Ee) | (_ & E & _)])];
      [congruence | | congruence].
    rewrite Ee. split; [reflexivity|]. split; [reflexivity|].
    split; [reflexivity|]. cbn [deref]. rewrite Ew. eexists. reflexivity.
  - intros op w before after. subst before after.
    destruct (run_world StringToNumber op w)
      as [E | [(structure & r & s & c & _ & E) | E]]; rewrite E.
    + now left.
    + right. left. eexists. reflexivity.
    + right. right. reflexivity.
Qed.

Lemma overpaint_layers_follow_cache_witness :
  completion (highlightDomains loaded_plugin (of_int 2) (of_int 3)
                (Some (str "#00ff00")) (world_with [sample_layer] loaded_plugin))
  = Normal tt
  /\ events (highlightDomains loaded_plugin (of_int 2) (of_int 3)
               (Some (str "#00ff00")) (world_with [sample_layer] loaded_plugin))
     = [overpaint_commit layers_overpaintLayers].
Proof.
  assert (completion (highlightDomains loaded_plugin (of_int 2) (of_int 3)
                        (Some (str "#00ff00"))
                        (world_with [sample_layer] loaded_plugin))
          = Normal tt) as H by reflexivity.
  split; [exact H|].
  exact (proj1 (proj1 (overpaint_layers_follow_cache not_numeric)
                  loaded_plugin (of_int 2) (of_int 3) (Some (str "#00ff00"))
                  (world_with [sample_layer] loaded_plugin) H)).
Defined.

(** C6.  The record a successful [highlightDomains(residueStart, residueEnd,
    colorHex)] appends holds exactly the atoms of the loaded structure whose
    sequence id lies in the closed interval from [residueStart] to
    [residueEnd], the colour value parsed from [colorHex], and a [clear]
    flag that is false. *)
Theorem highlightDomains_layer (plugin : PluginContext) (structure : Structure)
    (residueStart residueEnd : number) (colorHex : option JSString) (w : World) :
  first_structure_data plugin = Some structure ->
  isNaN (colorValue_of colorHex) = false ->
  exists layer,
    overpaintLayers
      (world_after (highlightDomains plugin residueStart residueEnd colorHex w))
    = overpaintLayers w ++ [layer]
    /\ (forall a,
          In a (bundle layer) <->
          In a structure
          /\ in_range residueStart residueEnd (residue_label_seq_id a))
    /\ color layer
       = parseInt (hex_of (with_default colorHex (str "#ff0000"))) 16
    /\ clear layer = false.
Proof.
  intros Hs Hc. rewrite (highlightDomains_pushed _ _ _ _ w Hs Hc).
  eexists. split; [reflexivity|]. split; [|split; reflexivity].
  intros a. cbn [bundle domain_layer].
  now rewrite filter_In, residueTest_in_range.
Qed.

Lemma highlightDomains_layer_witness :
  first_structure_data loaded_plugin = Some sample_structure
  /\ isNaN (colorValue_of (Some (str "#00ff00"))) = false
  /\ exists layer,
       overpaintLayers
         (world_after
            (highlightDomains loaded_plugin (of_int 2) (of_int 3)
               (Some (str "#00ff00")) (world_with [sample_layer] loaded_plugin)))
       = [sample_layer] ++ [layer]
       /\ clear layer = false.
Proof.
  assert (first_structure_data loaded_plugin = Some sample_structure) as Hs
    by reflexivity.
  assert (isNaN (colorValue_of (Some (str "#00ff00"))) = false) as Hc
    by reflexivity.
  split; [exact Hs|]. split; [exact Hc|].
  destruct (highlightDomains_layer loaded_plugin (of_int 2) (of_int 3)
              (Some (str "#00ff00")) (world_with [sample_layer] loaded_plugin)
              Hs Hc) as (layer & Happ & _ & _ & Hclear).
  exists layer. split; [exact Happ | exact Hclear].
Defined.

(** With integral bounds the selected atoms are those with
    [residueStart <= seq_id <= residueEnd]. *)
Lemma domain_layer_integral (structure : Structure) (lo hi : Z) (c : number)
    (a : Location) :
  In a (bundle (domain_layer structure (of_int lo) (of_int hi) c)) <->
  In a structure /\ lo <= residue_label_seq_id a <= hi.
Proof.
  cbn [bundle domain_layer].
  now rewrite filter_In, residueTest_in_range, in_range_of_int.
Qed.

Example highlightDomains_sample :
  map residue_label_seq_id
    (bundle (domain_layer sample_structure (of_int 2)
               (S754_finite false 7 (-1)) (of_int 255)))
  = [2; 2; 3; 3].
Proof. reflexivity. Qed.

(** ** Hover *)

Lemma getResidueInfo_first_atom (e : LociElement) (rest : list LociElement) :
  getResidueInfo (StructureElementLoci (e :: rest))
  = match first_atom e with
    | Some (model, atomIndex) =>
        Some {| aa := atoms_label_comp_id model atomIndex;
                num := residues_label_seq_id model
                         (residueAtomSegments_index model atomIndex);
                label := residue_label model atomIndex |}
    | None => None
    end.
Proof.
  unfold getResidueInfo, first_atom. cbn.
  destruct (element_unit e) as [u|]; [|reflexivity].
  destruct (OrderedSet_start (element_indices e)) as [i|]; [|reflexivity].
  destruct (nth_error (unit_elements u) i); reflexivity.
Qed.



Example hover_sample :
  events
    (hover_subscriber
       (StructureElementLoci
          [{| element_unit := Some sample_unit;
              element_indices := {| OrderedSet_start := Some 2%nat |} |}])
       (world_with [] loaded_plugin))
  = [Shiny_setInputValue (str "viewer-resi_aa") (host_string (str "ALA"));
     Shiny_setInputValue (str "viewer-resi_num") (host_number 105);
     Shiny_setInputValue (str "viewer-resiinfo") (host_string (str "ALA 105"))].
Proof. reflexivity. Qed.

(** The earlier revision sets the label for every structure-element loci
    with at least one element, and nothing otherwise. *)
Lemma Legacy_hover_label (loci : Legacy.Loci) (w : World) :
  events (Legacy.hover_subscriber loci w)
  = match loci with
    | Legacy.StructureElementLoci (e :: _) =>
        [Shiny_setInputValue (str "hoveredResidue")
           (host_string
              (Legacy_label (unit_model (Legacy.element_unit e))
                 (Legacy.element_indices_start e)))]
    | _ => []
    end.
Proof.
  destruct loci as [[|e rest]|]; try reflexivity.
  unfold Legacy.hover_subscriber, Legacy.getResidueInfo, Legacy_label.
  destruct (atoms_label_comp_id _ _); reflexivity.
Qed.

(** ** Exceptions *)

(** C8.  The claim fails on [highlightResidueWithSphere]: on a viewer with
    no loaded structure, a message with a usable position and the default
    colour makes the function read [structCell.cell] on [undefined], and the
    TypeError escapes; nothing is committed. *)
Theorem highlightResidueWithSphere_throws_without_structure :
  handler not_numeric (msg_highlightResidueWithSphere (pos 5) None)
    (world_with [] empty_plugin)
  = (Throw (TypeError "Cannot read properties of undefined (reading 'cell')"),
     world_with [] empty_plugin,
     [console_log "cleaned integer positions:" [arg_positions [5]]]).
Proof. reflexivity. Qed.

(** On the same viewer the sibling functions warn and return. *)
Example guarded_siblings_without_structure :
  handler not_numeric (msg_highlightDomains (of_int 1) (of_int 9) None)
    (world_with [] empty_plugin)
  = (Return, world_with [] empty_plugin, [console_warn "No Structure loaded" []])
  /\ handler not_numeric (msg_zoomToResidue (of_int 5) None)
       (world_with [] empty_plugin)
     = (Return, world_with [] empty_plugin, [console_warn "No structure loaded" []]).
Proof. split; reflexivity. Qed.


(** X9.  An operation that returns early has just warned, except the hover
    subscriber, which returns silently. *)
Lemma early_return_warns (StringToNumber : JSString -> number)
    (op : Operation) (w : World) :
  completion (run StringToNumber op w) = Return ->
  (forall loci, op <> hover loci) ->
  exists evs text args,
    events (run StringToNumber op w) = evs ++ [console_warn text args]
    /\ existsb is_commit (events (run StringToNumber op w)) = false.
Proof.
  assert (forall o,
            completion (run StringToNumber o w) = Return ->
            (forall loci, o <> hover loci) ->
            (forall msg, o <> host_message msg) ->
            exists evs text args,
              events (run StringToNumber o w) = evs ++ [console_warn text args]
              /\ existsb is_commit (events (run StringToNumber o w)) = false)
    as Hcalls.
  { intros o H Hh Hm.
    destruct o as [q r s t | q r s | q r s | q | q | q | q | msg | loci];
      cbn [run] in *; try discriminate H.
    - destruct (highlightDomains_cases q r s t w)
        as [(_ & _ & text & args & E)
           | (structure & _ & _ & _ & [(_ & E & _) | (_ & E & _)])].
      + exists [], text, args. rewrite E. split; reflexivity.
      + rewrite E in H. discriminate H.
      + rewrite E in H. discriminate H.
    - destruct (sphere_cases StringToNumber q r s w)
        as [[E _] | [[E _] | [([m E] & _) | [(ops & E & _) _]]]];
        rewrite E in *; try discriminate H;
        eexists [_], _, _; split; reflexivity.
    - destruct (zoomToResidue_cases q r s w)
        as (_ & Hc & [(_ & E & _) | (E & _)]).
      + exists [], "No structure loaded"%string, []. split; assumption.
      + rewrite E in H. discriminate H.
    - rewrite clearOverlays_run in H.
      destruct (has_node q cartoonRef); discriminate H.
    - rewrite clearPaint_run in H.
      destruct (has_node q cartoonRef); discriminate H.
    - now elim (Hm msg).
    - now elim (Hh loci). }
  intros H Hh.
  destruct op as [q r s t | q r s | q r s | q | q | q | q | msg | loci];
    try (apply Hcalls; [assumption | assumption | discriminate]; fail).
  cbn [run] in *. destruct (plugin w) as [p|] eqn:Hp.
  - rewrite (handler_ready _ _ _ Hp) in *.
    apply Hcalls; [assumption | | ]; destruct msg; discriminate.
  - destruct (handler_not_ready StringToNumber msg w Hp) as [text E].
    rewrite E. exists [], text, []. split; reflexivity.
Qed.

(** ** Frame of the clear commands *)

(** C9.  With the cartoon representation in the tree, [clearPaint] empties
    the overpaint cache and commits one builder that applies the overpaint
    transform with no layers to the cartoon representation; no step of it
    names the ['mutations'] group.  [clearOverlays] does the same and then
    commits the deletion of ['mutations'] and logs.  Neither changes
    anything else of the module state, and after either every overpaint
    [layers] parameter that aliases the cache denotes the empty array. *)
Theorem clearPaint_clearOverlays_frame (p : PluginContext) (w : World) :
  has_node p cartoonRef = true ->
  clearPaint p w
  = (Normal tt, with_layers w [], [overpaint_commit (layers_literal [])])
  /\ clearOverlays p w
     = (Normal tt, with_layers w [],
        events (clearPaint p w)
        ++ [commit [op_delete (str "mutations")];
            console_log "Overpaint layers cleared" []])
  /\ existsb (event_mentions (str "mutations")) (events (clearPaint p w))
     = false
  /\ existsb (event_mentions (str "mutations")) (events (clearOverlays p w))
     = true
  /\ existsb (event_mentions cartoonRef) (events (clearPaint p w)) = true
  /\ overpaintLayers (with_layers w []) = []
  /\ plugin (with_layers w []) = plugin w
  /\ MY_MODULE_NS (with_layers w []) = MY_MODULE_NS w
  /\ deref (with_layers w []) layers_overpaintLayers = [].
Proof.
  intros H. rewrite clearOverlays_run, clearPaint_run, H. repeat split.
Qed.

Lemma clearPaint_clearOverlays_frame_witness :
  has_node loaded_plugin cartoonRef = true
  /\ clearPaint loaded_plugin (world_with [sample_layer] loaded_plugin)
     = (Normal tt, world_with [] loaded_plugin,
        [overpaint_commit (layers_literal [])]).
Proof.
  assert (has_node loaded_plugin cartoonRef = true) as H by reflexivity.
  split; [exact H|].
  exact (proj1 (@clearPaint_clearOverlays_frame loaded_plugin
                  (world_with [sample_layer] loaded_plugin) H)).
Defined.

(** Without the cartoon node both clear functions empty the cache and then
    fail at [to(cartoonRef)]: nothing is committed, ['mutations'] is not
    deleted and nothing is logged. *)
Lemma clear_without_cartoon (p : PluginContext) (w : World) :
  has_node p cartoonRef = false ->
  clearPaint p w = (Throw (CouldNotFindNode cartoonRef), with_layers w [], [])
  /\ clearOverlays p w
     = (Throw (CouldNotFindNode cartoonRef), with_layers w [], []).
Proof.
  intros H. rewrite clearOverlays_run, clearPaint_run, H. split; reflexivity.
Qed.

(** * Further properties of the module *)

(** ** Rounding to binary64 never yields NaN *)

Lemma shr_1_nonneg (mrs : shr_record) : 0 <= shr_m mrs -> 0 <= shr_m (shr_1 mrs).
Proof.
  destruct mrs as [m r s]. simpl.
  destruct m as [|[p|p|]|[p|p|]]; simpl; lia.
Qed.

Lemma iter_shr_1_nonneg (p : positive) (mrs : shr_record) :
  0 <= shr_m mrs -> 0 <= shr_m (iter_pos shr_1 p mrs).
Proof.
  revert mrs. induction p as [p IH | p IH |]; intros mrs H; simpl.
  - apply IH, IH, shr_1_nonneg, H.
  - apply IH, IH, H.
  - apply shr_1_nonneg, H.
Qed.

Lemma shr_fexp_nonneg (prec emax m e : Z) (l : location) :
  0 <= m -> 0 <= shr_m (fst (shr_fexp prec emax m e l)).
Proof.
  intros H. unfold shr_fexp, shr.
  assert (0 <= shr_m (shr_record_of_loc m l)) as H0
    by (destruct l as [|[]]; exact H).
  destruct (fexp prec emax (Zdigits2 m + e) - e); simpl; try exact H0.
  apply iter_shr_1_nonneg, H0.
Qed.

Lemma round_nearest_even_nonneg (m : Z) (l : location) :
  0 <= m -> 0 <= round_nearest_even m l.
Proof.
  intros H. destruct l as [|[]]; simpl; try lia.
  destruct (Z.even m); lia.
Qed.

Lemma binary_round_aux_not_NaN (prec emax : Z) (sx : bool) (mx ex : Z)
    (lx : location) :
  0 <= mx -> isNaN (binary_round_aux prec emax sx mx ex lx) = false.
Proof.
  intros H. unfold binary_round_aux.
  pose proof (shr_fexp_nonneg prec emax ex lx H) as H1.
  destruct (shr_fexp prec emax mx ex lx) as [mrs' e']. simpl in H1.
  pose proof (shr_fexp_nonneg prec emax e' loc_Exact
                (round_nearest_even_nonneg (loc_of_shr_record mrs') H1)) as H2.
  destruct (shr_fexp prec emax
              (round_nearest_even (shr_m mrs') (loc_of_shr_record mrs')) e'
              loc_Exact) as [mrs'' e'']. simpl in H2.
  destruct (shr_m mrs'') as [|m|m]; [reflexivity | | lia].
  destruct (e'' <=? emax - prec); reflexivity.
Qed.

Lemma binary64_not_NaN (z : Z) (negative_zero : bool) :
  isNaN (binary64 z negative_zero) = false.
Proof.
  unfold binary64, binary_normalize, binary_round.
  destruct z as [|p|p]; [reflexivity | |];
    destruct (shl_align p 0 _) as [mz ez];
    apply binary_round_aux_not_NaN; lia.
Qed.

(** ** Which colour strings pass the colour test *)

Lemma startsWith_nil (s : JSString) : startsWith s [] = true.
Proof. now destruct s. Qed.

Lemma isHexDigit_range (c : CodeUnit) :
  isHexDigit c = true ->
  (48 <= c <= 57 \/ 65 <= c <= 70 \/ 97 <= c <= 102)%N.
Proof.
  unfold isHexDigit, digitValue.
  destruct (N.leb_spec 48 c), (N.leb_spec c 57); cbn [andb];
    try (intros _; lia);
    destruct (N.leb_spec 65 c), (N.leb_spec c 90); cbn [andb];
    try (rewrite Z.ltb_lt; lia);
    destruct (N.leb_spec 97 c), (N.leb_spec c 122); cbn [andb];
    try (rewrite Z.ltb_lt; lia); discriminate.
Qed.

Lemma hex_digit_not_space (c : CodeUnit) :
  isHexDigit c = true -> isStrWhiteSpaceChar c = false.
Proof.
  intros H. apply isHexDigit_range in H. unfold isStrWhiteSpaceChar.
  cbn [existsb]. repeat rewrite orb_false_iff.
  repeat split; try reflexivity; try (apply N.eqb_neq; lia).
  apply andb_false_iff. left. apply N.leb_gt. lia.
Qed.

Lemma parseInt_hex_lead (d : CodeUnit) (rest : JSString) :
  isHexDigit d = true ->
  startsWith (d :: rest) (str "0x") = false ->
  startsWith (d :: rest) (str "0X") = false ->
  isNaN (parseInt (d :: rest) 16) = false.
Proof.
  intros Hd Hx HX. pose proof (isHexDigit_range d Hd) as Hr.
  unfold parseInt. cbn [trimStart]. rewrite (hex_digit_not_space d Hd).
  assert (startsWith (d :: rest) (str "-") = false) as ->.
  { change (N.eqb d 45 && startsWith rest [] = false).
    rewrite startsWith_nil, andb_true_r. apply N.eqb_neq. lia. }
  assert (startsWith (d :: rest) (str "+") = false) as ->.
  { change (N.eqb d 43 && startsWith rest [] = false).
    rewrite startsWith_nil, andb_true_r. apply N.eqb_neq. lia. }
  cbn [orb]. rewrite Hx, HX. cbn [orb andb Z.ltb Z.compare Z.eqb Pos.eqb Pos.compare
                                  Pos.compare_cont].
  unfold isHexDigit in Hd. cbn [radixDigits].
  destruct (digitValue d) as [v|]; [|discriminate]. rewrite Hd.
  apply binary64_not_NaN.
Qed.

Lemma parseInt_bad_lead (c : CodeUnit) (rest : JSString) :
  isStrWhiteSpaceChar c = false ->
  c <> 43%N -> c <> 45%N ->
  isHexDigit c = false ->
  isNaN (parseInt (c :: rest) 16) = true.
Proof.
  intros Hs Hp Hm Hd. unfold parseInt. cbn [trimStart]. rewrite Hs.
  assert (startsWith (c :: rest) (str "-") = false) as ->.
  { change (N.eqb c 45 && startsWith rest [] = false).
    rewrite startsWith_nil, andb_true_r. now apply N.eqb_neq. }
  assert (startsWith (c :: rest) (str "+") = false) as ->.
  { change (N.eqb c 43 && startsWith rest [] = false).
    rewrite startsWith_nil, andb_true_r. now apply N.eqb_neq. }
  assert (N.eqb c 48 = false) as H0.
  { apply N.eqb_neq. intros ->. discriminate Hd. }
  cbn [orb].
  assert (startsWith (c :: rest) (str "0x") = false) as ->
    by (change (N.eqb c 48 && startsWith rest (str "x") = false);
        now rewrite H0).
  assert (startsWith (c :: rest) (str "0X") = false) as ->
    by (change (N.eqb c 48 && startsWith rest (str "X") = false);
        now rewrite H0).
  cbn [orb andb Z.ltb Z.compare Z.eqb Pos.eqb Pos.compare Pos.compare_cont].
  unfold isHexDigit in Hd. cbn [radixDigits].
  destruct (digitValue c) as [v|]; [rewrite Hd|]; reflexivity.
Qed.

(** X14.  A colour string that starts, after an optional ['#'], with a
    hexadecimal digit (and not with the prefix [0x]) passes the colour test
    whatever follows the digit; with and without the ['#'] it is the same
    colour, and [highlightDomains] on a loaded structure whose tree has the
    cartoon node then runs to its end. *)
Theorem hex_color_accepted (d : CodeUnit) (rest : JSString)
    (plugin : PluginContext) (structure : Structure)
    (residueStart residueEnd : number) (w : World) :
  isHexDigit d = true ->
  startsWith (d :: rest) (str "0x") = false ->
  startsWith (d :: rest) (str "0X") = false ->
  first_structure_data plugin = Some structure ->
  has_node plugin cartoonRef = true ->
  isNaN (colorValue_of (Some (d :: rest))) = false
  /\ colorValue_of (Some (str "#" ++ d :: rest)) = colorValue_of (Some (d :: rest))
  /\ completion (highlightDomains plugin residueStart residueEnd
                   (Some (str "#" ++ d :: rest)) w) = Normal tt.
Proof.
  intros Hd Hx HX Hs Hn. pose proof (isHexDigit_range d Hd) as Hr.
  assert (hex_of (d :: rest) = d :: rest) as E1.
  { unfold hex_of. change (startsWith (d :: rest) (str "#"))
      with (N.eqb d 35 && startsWith rest []).
    assert (N.eqb d 35 = false) as -> by (apply N.eqb_neq; lia).
    reflexivity. }
  assert (colorValue_of (Some (str "#" ++ d :: rest))
          = colorValue_of (Some (d :: rest))) as E2.
  { unfold colorValue_of. cbn [with_default]. now rewrite E1. }
  assert (isNaN (colorValue_of (Some (d :: rest))) = false) as E3.
  { unfold colorValue_of. cbn [with_default]. rewrite E1.
    now apply parseInt_hex_lead. }
  split; [exact E3|]. split; [exact E2|].
  rewrite <- E2 in E3.
  now rewrite (highlightDomains_success _ _ _ _ w Hs E3 Hn).
Qed.

Lemma hex_color_accepted_witness :
  isHexDigit 102%N = true
  /\ isNaN (colorValue_of (Some (str "f0-not a colour"))) = false
  /\ completion (highlightDomains loaded_plugin (of_int 1) (of_int 2)
                   (Some (str "#f0-not a colour"))
                   (world_with [] loaded_plugin)) = Normal tt.
Proof.
  assert (isHexDigit 102%N = true) as Hd by reflexivity.
  assert (first_structure_data loaded_plugin = Some sample_structure) as Hs
    by reflexivity.
  split; [exact Hd|].
  destruct (@hex_color_accepted 102%N (str "0-not a colour") loaded_plugin
              sample_structure (of_int 1) (of_int 2)
              (world_with [] loaded_plugin) Hd eq_refl eq_refl Hs eq_refl)
    as (H1 & _ & H3).
  split; [exact H1 | exact H3].
Defined.

(** X15.  A colour string is rejected when it is empty, is only ['#'], or when its
    first code unit after the optional ['#'] is neither white space, a sign
    nor a hexadecimal digit (a second ['#'], for one). *)
Theorem non_hex_color_rejected (c : CodeUnit) (rest : JSString) :
  isStrWhiteSpaceChar c = false ->
  c <> 43%N -> c <> 45%N ->
  isHexDigit c = false ->
  isNaN (colorValue_of (Some (str "#" ++ c :: rest))) = true
  /\ (c <> 35%N -> isNaN (colorValue_of (Some (c :: rest))) = true)
  /\ isNaN (colorValue_of (Some [])) = true
  /\ isNaN (colorValue_of (Some (str "#"))) = true.
Proof.
  intros Hs Hp Hm Hd. split; [|split; [|split; reflexivity]].
  - change (colorValue_of (Some (str "#" ++ c :: rest)))
      with (parseInt (c :: rest) 16).
    now apply parseInt_bad_lead.
  - intros Hh. unfold colorValue_of, hex_of. cbn [with_default].
    change (startsWith (c :: rest) (str "#"))
      with (N.eqb c 35 && startsWith rest []).
    assert (N.eqb c 35 = false) as -> by now apply N.eqb_neq.
    cbn [andb]. now apply parseInt_bad_lead.
Qed.

Lemma non_hex_color_rejected_witness :
  isStrWhiteSpaceChar 35%N = false
  /\ isHexDigit 35%N = false
  /\ isNaN (colorValue_of (Some (str "##ff0000"))) = true.
Proof.
  assert (isStrWhiteSpaceChar 35%N = false) as Hs by reflexivity.
  assert (isHexDigit 35%N = false) as Hd by reflexivity.
  split; [exact Hs|]. split; [exact Hd|].
  refine (proj1 (@non_hex_color_rejected 35%N (str "ff0000") Hs _ _ Hd));
    discriminate.
Defined.

(** ** More on the cleaning of positions *)

Lemma flatten_map_pos (l : list Z) :
  flatten (JArray (map pos l)) = map (fun z => JNumber (of_int z)) l.
Proof.
  rewrite flatten_JArray. induction l as [|z l IH]; simpl; [reflexivity|].
  now rewrite IH.
Qed.

Lemma Math_floor_of_int (z : Z) : Math_floor (of_int z) = z.
Proof. destruct z; reflexivity. Qed.

Lemma of_int_finite (z : Z) : Number_isFinite (of_int z) = true.
Proof. destruct z; reflexivity. Qed.

(** X2.  Cleaning is idempotent: the cleaned positions, sent again as an array
    of numbers, clean to themselves. *)
Theorem uniquePos_idempotent (StringToNumber : JSString -> number)
    (positions : JSValue) :
  uniquePos StringToNumber
    (JArray (map pos (uniquePos StringToNumber positions)))
  = uniquePos StringToNumber positions.
Proof.
  apply strictly_sorted_ext; try apply uniquePos_sorted.
  intros z. rewrite (uniquePos_In StringToNumber (JArray _)), posNums_In.
  rewrite flatten_map_pos. split.
  - intros (p & Hp & _ & Hz). apply in_map_iff in Hp.
    destruct Hp as (y & <- & Hy). cbn [Number] in Hz.
    rewrite Math_floor_of_int in Hz. now subst.
  - intros Hz. exists (JNumber (of_int z)). split; [|split].
    + apply in_map_iff. now exists z.
    + apply of_int_finite.
    + apply Math_floor_of_int.
Qed.

(** X3.  What coercion keeps and drops: [null] and [false] become position 0 and
    [true] position 1, whereas a cleaned position never stems from
    [undefined], NaN or an infinity. *)
Theorem coerced_positions (StringToNumber : JSString -> number)
    (positions : JSValue) :
  (In JNull (flatten positions) \/ In (JBoolean false) (flatten positions) ->
   In 0 (uniquePos StringToNumber positions))
  /\ (In (JBoolean true) (flatten positions) ->
      In 1 (uniquePos StringToNumber positions))
  /\ (forall z,
        In z (uniquePos StringToNumber positions) ->
        exists p, In p (flatten positions)
                  /\ Math_floor (Number StringToNumber p) = z
                  /\ p <> JUndefined
                  /\ p <> JNumber S754_nan
                  /\ forall s, p <> JNumber (S754_infinity s)).
Proof.
  split; [|split].
  - intros [H | H]; apply uniquePos_In, posNums_In; eexists; (split; [exact H|]);
      split; reflexivity.
  - intros H. apply uniquePos_In, posNums_In. eexists. split; [exact H|].
    split; reflexivity.
  - intros z Hz. apply uniquePos_In, posNums_In in Hz.
    destruct Hz as (p & Hp & Hf & Hz). exists p.
    repeat split; auto; [intros -> | intros -> | intros s ->];
      cbn in Hf; discriminate Hf.
Qed.

Lemma coerced_positions_witness :
  In JNull (flatten (JArray [JLeaf JUndefined; JLeaf JNull]))
  /\ In 0 (uniquePos not_numeric (JArray [JLeaf JUndefined; JLeaf JNull])).
Proof.
  assert (In JNull (flatten (JArray [JLeaf JUndefined; JLeaf JNull]))) as H
    by (simpl; auto).
  split; [exact H|].
  exact (proj1 (coerced_positions not_numeric
                  (JArray [JLeaf JUndefined; JLeaf JNull]))
           (or_introl H)).
Defined.

Lemma posNums_length (StringToNumber : JSString -> number)
    (rawFlat : list JSPrim) :
  (List.length (posNums StringToNumber rawFlat) <= List.length rawFlat)%nat.
Proof.
  unfold posNums. induction rawFlat as [|p l IH]; simpl; [lia|].
  destruct (Number_isFinite (Number StringToNumber p)); simpl; lia.
Qed.

(** There are never more cleaned positions than flattened values. *)
Theorem uniquePos_length (StringToNumber : JSString -> number)
    (positions : JSValue) :
  (List.length (uniquePos StringToNumber positions)
   <= List.length (flatten positions))%nat.
Proof.
  eapply Nat.le_trans; [|apply (posNums_length StringToNumber)].
  apply NoDup_incl_length.
  - apply strictly_sorted_NoDup, uniquePos_sorted.
  - intros z Hz. now apply uniquePos_In.
Qed.

(** X5.  The handler's wrapping of [msg.positions] in an array is immaterial:
    with the viewer created, a sphere message behaves as the direct call on
    the positions, with the default colour filled in. *)
Theorem sphere_message_as_call (StringToNumber : JSString -> number)
    (positions : JSValue) (colorHex : option JSString) (w : World)
    (p : PluginContext) :
  plugin w = Some p ->
  handler StringToNumber (msg_highlightResidueWithSphere positions colorHex) w
  = highlightResidueWithSphere StringToNumber p positions
      (Some (with_default colorHex (str "#ff0000"))) w.
Proof.
  intros H. rewrite (handler_ready _ _ _ H). cbn [operation_of_message run].
  unfold highlightResidueWithSphere. now rewrite uniquePos_wrap.
Qed.

Lemma sphere_message_as_call_witness :
  plugin (world_with [] loaded_plugin) = Some loaded_plugin
  /\ completion
       (handler not_numeric
          (msg_highlightResidueWithSphere (JArray [pos 3; pos 1]) None)
          (world_with [] loaded_plugin))
     = Normal tt.
Proof.
  assert (plugin (world_with [] loaded_plugin) = Some loaded_plugin) as H
    by reflexivity.
  split; [exact H|].
  rewrite (@sphere_message_as_call not_numeric (JArray [pos 3; pos 1]) None
             (world_with [] loaded_plugin) loaded_plugin H).
  reflexivity.
Defined.

(** ** Exceptions, early returns and the frame of the operations *)

(** X7.  [highlightResidueWithSphere] throws exactly when the cleaned positions
    are not empty, the colour parses and the first structure's data is
    missing; it then has logged the positions, warned of nothing, committed
    nothing and left the module state as it was. *)
Theorem sphere_throws_iff (StringToNumber : JSString -> number)
    (plugin : PluginContext) (positions : JSValue) (colorHex : option JSString)
    (w : World) :
  let r := highlightResidueWithSphere StringToNumber plugin positions colorHex w in
  ((exists e, completion r = Throw e) <->
   uniquePos StringToNumber positions <> []
   /\ isNaN (colorValue_of colorHex) = false
   /\ first_structure_data plugin = None)
  /\ ((exists e, completion r = Throw e) ->
      world_after r = w
      /\ existsb is_warn (events r) = false
      /\ existsb is_commit (events r) = false).
Proof.
  intros r. subst r.
  destruct (sphere_cases StringToNumber plugin positions colorHex w)
    as [[E H] | [(E & H & Hc) | [((m & E) & H & Hc & Hs) | ((ops & E & _) & H & Hc & Hs)]]];
    rewrite E; run_body.
  - split; [split|].
    + intros [e F]. discriminate F.
    + intros (F & _). contradiction.
    + intros [e F]. discriminate F.
  - split; [split|].
    + intros [e F]. discriminate F.
    + intros (_ & F & _). congruence.
    + intros [e F]. discriminate F.
  - split; [split|].
    + intros _. auto.
    + intros _. eexists. reflexivity.
    + intros _. repeat split.
  - split; [split|].
    + intros [e F]. discriminate F.
    + intros (_ & _ & F). contradiction.
    + intros [e F]. discriminate F.
Qed.

Lemma sphere_throws_iff_witness :
  exists e,
    completion (highlightResidueWithSphere not_numeric empty_plugin (pos 5) None
                  (world_with [sample_layer] empty_plugin)) = Throw e.
Proof.
  apply (proj1 (sphere_throws_iff not_numeric empty_plugin (pos 5) None
                  (world_with [sample_layer] empty_plugin))).
  repeat split. discriminate.
Defined.


Lemma early_return_warns_witness :
  exists evs text args,
    events (run not_numeric
              (host_message (msg_highlightDomains (of_int 1) (of_int 2)
                               (Some (str "#zz"))))
              (world_with [] loaded_plugin))
    = evs ++ [console_warn text args]
    /\ existsb is_commit
         (events (run not_numeric
                    (host_message (msg_highlightDomains (of_int 1) (of_int 2)
                                     (Some (str "#zz"))))
                    (world_with [] loaded_plugin)))
       = false.
Proof.
  apply (@early_return_warns not_numeric
           (host_message (msg_highlightDomains (of_int 1) (of_int 2)
                            (Some (str "#zz"))))
           (world_with [] loaded_plugin)).
  - reflexivity.
  - discriminate.
Defined.

(** X6.  Before the viewer is created every message is answered by one warning:
    the handler returns early, nothing is committed and the module state
    stays as it was. *)
Theorem message_before_viewer (StringToNumber : JSString -> number)
    (msg : Message) (w : World) :
  plugin w = None ->
  let r := handler StringToNumber msg w in
  completion r = Return
  /\ world_after r = w
  /\ exists text, events r = [console_warn text []].
Proof.
  intros H r. subst r.
  destruct (handler_not_ready StringToNumber msg w H) as [text E].
  rewrite E. repeat split. now exists text.
Qed.

Lemma message_before_viewer_witness :
  completion
    (handler not_numeric (msg_highlightResidueWithSphere (pos 5) None)
       {| overpaintLayers := []; plugin := None; MY_MODULE_NS := [] |})
  = Return.
Proof.
  exact (proj1 (@message_before_viewer not_numeric
                  (msg_highlightResidueWithSphere (pos 5) None)
                  {| overpaintLayers := []; plugin := None; MY_MODULE_NS := [] |}
                  eq_refl)).
Defined.

(** X10.  Only [highlightDomains], [clearOverlays] and [clearPaint] (called
    directly or through their messages) touch the module state: every other
    operation, also a [highlightResidueWithSphere] that throws, leaves the
    overpaint cache and the rest of the state exactly as it was. *)
Theorem other_operations_keep_state (StringToNumber : JSString -> number)
    (op : Operation) (w : World) :
  writes_cache op = false ->
  world_after (run StringToNumber op w) = w.
Proof.
  assert (forall o, writes_cache o = false ->
                    (forall msg, o <> host_message msg) ->
                    world_after (run StringToNumber o w) = w) as Hcalls.
  { intros o Ho Hm.
    destruct o as [q r s t | q r s | q r s | q | q | q | q | msg | loci];
      try discriminate Ho; cbn [run]; try reflexivity.
    - destruct (sphere_cases StringToNumber q r s w)
        as [[E _] | [[E _] | [[[m E] _] | [(ops & E & _) _]]]];
        now rewrite E.
    - apply zoomToResidue_cases.
    - now elim (Hm msg).
    - apply hover_subscriber_world. }
  intros Hop.
  destruct op as [q r s t | q r s | q r s | q | q | q | q | msg | loci];
    try (apply Hcalls; [assumption | discriminate]; fail).
  cbn [run]. destruct (plugin w) as [p|] eqn:Hp.
  - rewrite (handler_ready _ _ _ Hp).
    apply Hcalls; destruct msg; try discriminate; exact Hop.
  - destruct (handler_not_ready StringToNumber msg w Hp) as [text E].
    now rewrite E.
Qed.

Lemma other_operations_keep_state_witness :
  writes_cache (call_highlightResidueWithSphere empty_plugin (pos 5) None) = false
  /\ world_after
       (run not_numeric (call_highlightResidueWithSphere empty_plugin (pos 5) None)
          (world_with [sample_layer] empty_plugin))
     = world_with [sample_layer] empty_plugin.
Proof.
  split; [reflexivity|].
  exact (@other_operations_keep_state not_numeric
           (call_highlightResidueWithSphere empty_plugin (pos 5) None)
           (world_with [sample_layer] empty_plugin) eq_refl).
Defined.

Lemma cache_records_invariant_witness :
  Forall painted (overpaintLayers (world_with [sample_layer] loaded_plugin))
  /\ Forall painted
       (overpaintLayers
          (run_all not_numeric
             [host_message (msg_highlightDomains (of_int 2) (of_int 3) None);
              hover OtherLoci;
              host_message (msg_highlightResidueWithSphere (pos 2) None)]
             (world_with [sample_layer] loaded_plugin))).
Proof.
  assert (Forall painted (overpaintLayers (world_with [sample_layer] loaded_plugin)))
    as H by (repeat constructor).
  split; [exact H|].
  exact (@cache_records_invariant not_numeric _ _ H).
Defined.

(** ** Sequences of domain highlights *)

Lemma request_step (StringToNumber : JSString -> number) (r : DomainRequest)
    (w : World) (p : PluginContext) (structure : Structure) :
  plugin w = Some p ->
  first_structure_data p = Some structure ->
  isNaN (colorValue_of (request_color r)) = false ->
  world_after (run StringToNumber (request_message r) w)
  = with_layers w (overpaintLayers w ++ [request_layer structure r]).
Proof.
  intros Hp Hs Hc. unfold request_message. cbn [run].
  rewrite (handler_ready _ _ _ Hp). cbn [operation_of_message run].
  rewrite (@highlightDomains_pushed p structure (request_start r) (request_end r)
             (Some (with_default (request_color r) (str "#ff0000"))) w Hs Hc).
  reflexivity.
Qed.

(** X12.  Domain highlight messages accumulate: on a viewer with a loaded
    structure, a sequence of requests with parseable colours leaves the
    cache it found followed by one record per request, in the order of the
    requests and without merging equal ones. *)
Theorem highlight_requests_accumulate (StringToNumber : JSString -> number)
    (requests : list DomainRequest) (w : World) (p : PluginContext)
    (structure : Structure) :
  plugin w = Some p ->
  first_structure_data p = Some structure ->
  Forall (fun r => isNaN (colorValue_of (request_color r)) = false) requests ->
  overpaintLayers (run_all StringToNumber (map request_message requests) w)
  = overpaintLayers w ++ map (request_layer structure) requests.
Proof.
  intros Hp Hs Hall. revert w Hp.
  induction Hall as [|r requests Hr _ IH]; intros w Hp; cbn [map run_all].
  - now rewrite app_nil_r.
  - rewrite (request_step StringToNumber r w Hp Hs Hr), IH by exact Hp.
    cbn [with_layers overpaintLayers]. now rewrite <- app_assoc.
Qed.

Lemma highlight_requests_accumulate_witness :
  List.length
    (overpaintLayers
       (run_all not_numeric
          (map request_message
             [{| request_start := of_int 1; request_end := of_int 2;
                 request_color := None |};
              {| request_start := of_int 1; request_end := of_int 2;
                 request_color := None |}])
          (world_with [sample_layer] loaded_plugin)))
  = 3%nat.
Proof.
  rewrite (@highlight_requests_accumulate not_numeric _
             (world_with [sample_layer] loaded_plugin) loaded_plugin
             sample_structure eq_refl eq_refl).
  - reflexivity.
  - repeat constructor.
Defined.

(** ** Domains that select nothing *)

Lemma filter_none (A : Type) (f : A -> bool) (l : list A) :
  (forall a, In a l -> f a = false) -> filter f l = [].
Proof.
  induction l as [|x l IH]; intros H; simpl; [reflexivity|].
  rewrite (H x (or_introl eq_refl)). apply IH. intros a Ha. apply H. now right.
Qed.

Lemma in_range_NaN (residueStart residueEnd : number) (z : Z) :
  isNaN residueStart = true \/ isNaN residueEnd = true ->
  ~ in_range residueStart residueEnd z.
Proof.
  unfold in_range.
  intros [H | H]; [destruct residueStart | destruct residueEnd];
    try discriminate H; simpl.
  - tauto.
  - destruct (real_of residueStart); tauto.
Qed.

(** X13.  [highlightDomains] does not check its bounds: with a NaN bound, or with
    integral bounds in the wrong order, a call past both guards still
    appends a record, whose bundle is empty; and when the tree has the
    cartoon node the call runs to its end and commits the overpaint. *)
Theorem empty_domain_still_painted (plugin : PluginContext) (structure : Structure)
    (residueStart residueEnd : number) (colorHex : option JSString) (w : World) :
  first_structure_data plugin = Some structure ->
  isNaN (colorValue_of colorHex) = false ->
  isNaN residueStart = true \/ isNaN residueEnd = true
  \/ (exists lo hi,
        residueStart = of_int lo /\ residueEnd = of_int hi /\ hi < lo) ->
  let r := highlightDomains plugin residueStart residueEnd colorHex w in
  (exists layer,
     overpaintLayers (world_after r) = overpaintLayers w ++ [layer]
     /\ bundle layer = [])
  /\ (has_node plugin cartoonRef = true ->
      completion r = Normal tt
      /\ events r = [overpaint_commit layers_overpaintLayers]).
Proof.
  intros Hs Hc Hb r. subst r. rewrite (highlightDomains_pushed _ _ _ _ w Hs Hc).
  split; [|intros Hn; rewrite Hn; split; reflexivity].
  eexists. split; [reflexivity|]. cbn [bundle domain_layer].
  apply filter_none. intros a _.
  destruct (number_ge (of_int (residue_label_seq_id a)) residueStart
            && number_le (of_int (residue_label_seq_id a)) residueEnd) eqn:E;
    [|reflexivity].
  exfalso. apply residueTest_in_range in E.
  destruct Hb as [H | [H | (lo & hi & -> & -> & H)]].
  - exact (@in_range_NaN residueStart residueEnd _ (or_introl H) E).
  - exact (@in_range_NaN residueStart residueEnd _ (or_intror H) E).
  - apply in_range_of_int in E. lia.
Qed.

Lemma empty_domain_still_painted_witness :
  List.length
    (overpaintLayers
       (world_after
          (highlightDomains loaded_plugin (of_int 3) (of_int 1) None
             (world_with [sample_layer] loaded_plugin))))
  = 2%nat
  /\ events
       (highlightDomains loaded_plugin (of_int 3) (of_int 1) None
          (world_with [sample_layer] loaded_plugin))
     = [overpaint_commit layers_overpaintLayers].
Proof.
  assert (isNaN (of_int 3) = true \/ isNaN (of_int 1) = true
          \/ (exists lo hi, of_int 3 = of_int lo /\ of_int 1 = of_int hi /\ hi < lo))
    as Hb by (right; right; exists 3, 1; repeat split; lia).
  destruct (@empty_domain_still_painted loaded_plugin sample_structure
              (of_int 3) (of_int 1) None
              (world_with [sample_layer] loaded_plugin) eq_refl eq_refl Hb)
    as ((layer & Hl & _) & Hn).
  split; [rewrite Hl; reflexivity | exact (proj2 (Hn eq_refl))].
Defined.

(** ** Zooming *)

Lemma compare_finite_antisym (x y : number) :
  compare_finite y x = CompOpp (compare_finite x y).
Proof.
  unfold compare_finite. rewrite (Z.min_comm (exponent y)). apply Z.compare_antisym.
Qed.

Lemma number_strict_eq_le (x y : number) :
  number_strict_eq x y = number_le x y && number_le y x.
Proof.
  destruct x as [s | s | | s m e], y as [s' | s' | | s' m' e'];
    try (destruct s, s'; reflexivity); try (destruct s; reflexivity);
    try (destruct s'; reflexivity); try reflexivity;
    cbv beta iota delta [number_strict_eq number_le number_compare];
    match goal with
    | |- context [compare_finite ?b ?a] =>
        rewrite (compare_finite_antisym b a)
    end;
    destruct (compare_finite _ _); reflexivity.
Qed.

Lemma number_strict_eq_spec (z : Z) (x : number) :
  number_strict_eq (of_int z) x = true <-> number_equals_int x z.
Proof.
  rewrite number_strict_eq_le, andb_true_iff, !number_le_spec.
  unfold number_equals_int.
  destruct (real_of_of_int z) as (q & -> & Hq).
  destruct (real_of x) as [| | | q']; simpl; try tauto.
  rewrite Hq. split.
  - intros [H1 H2]. now apply Qle_antisym.
  - intros ->. split; apply Qle_refl.
Qed.

Lemma JSString_eqb_spec (a b : JSString) : JSString_eqb a b = true <-> a = b.
Proof.
  unfold JSString_eqb. destruct (list_eq_dec N.eq_dec a b); split;
    auto; discriminate.
Qed.

(** X16.  With a structure loaded, [zoomToResidue] focuses the camera on, and
    highlights, the same loci: exactly the atoms of the structure in chain
    [chainId] (chain ['A'] when none is given) whose sequence id equals
    [residueNumber].  It does not check that the residue exists: when no
    atom matches (a fractional or NaN number, for one), the loci is empty
    and the function still focuses, logs and highlights.  It commits
    nothing and leaves the module state as it was. *)
Theorem zoomToResidue_focus (plugin : PluginContext) (structure : Structure)
    (residueNumber : number) (chainId : option JSString) (w : World) :
  first_structure_data plugin = Some structure ->
  exists loci,
    zoomToResidue plugin residueNumber chainId w
    = (Normal tt, w,
       [camera_focusLoci loci;
        console_log "Zoomed to residue ${residueNumber} in chain ${chainId}"
          [arg_number residueNumber;
           arg_string (with_default chainId (str "A"))];
        lociHighlights_highlight loci])
    /\ (forall a,
          In a loci <->
          In a structure
          /\ chain_label_asym_id a = with_default chainId (str "A")
          /\ number_equals_int residueNumber (residue_label_seq_id a))
    /\ ((forall a, In a structure ->
                   ~ number_equals_int residueNumber (residue_label_seq_id a)) ->
        loci = []).
Proof.
  intros Hs. unfold zoomToResidue. rewrite Hs. eexists.
  split; [reflexivity|].
  unfold Bundle_toLoci, Bundle_fromSelection, atoms. cbn [chainTest residueTest runTest].
  split.
  - intros a. rewrite filter_In, andb_true_iff, JSString_eqb_spec,
      number_strict_eq_spec. tauto.
  - intros Hnone. apply filter_none. intros a Ha.
    apply andb_false_iff. right.
    destruct (number_strict_eq (of_int (residue_label_seq_id a)) residueNumber)
      eqn:E; [|reflexivity].
    apply number_strict_eq_spec in E. now elim (Hnone a Ha).
Qed.

Lemma zoomToResidue_focus_witness :
  first_structure_data loaded_plugin = Some sample_structure
  /\ exists loci,
       events (zoomToResidue loaded_plugin (of_int 3) None
                 (world_with [] loaded_plugin))
       = [camera_focusLoci loci;
          console_log "Zoomed to residue ${residueNumber} in chain ${chainId}"
            [arg_number (of_int 3); arg_string (str "A")];
          lociHighlights_highlight loci]
       /\ (In (sample_atom "A" 3 "CA") loci
           <-> In (sample_atom "A" 3 "CA") sample_structure
               /\ chain_label_asym_id (sample_atom "A" 3 "CA") = str "A"
               /\ number_equals_int (of_int 3)
                    (residue_label_seq_id (sample_atom "A" 3 "CA"))).
Proof.
  assert (first_structure_data loaded_plugin = Some sample_structure) as Hs
    by reflexivity.
  split; [exact Hs|].
  destruct (@zoomToResidue_focus loaded_plugin sample_structure (of_int 3) None
              (world_with [] loaded_plugin) Hs) as (loci & E & Hin & _).
  exists loci. split; [now rewrite E | apply Hin].
Defined.

(** ** The two revisions of the hover subscriber *)

(** X17.  The earlier revision takes the first index of the ordered set as the
    atom index, the current one looks it up in the unit's elements.  When
    the unit's element at the first index is that index itself, both
    revisions read the same component id and sequence id; the earlier one
    sets them as ['hoveredResidue'] joined by U+00A0 (a no-break space), the
    current one as ['resiinfo'] joined by U+0020, so that the two labels are
    different strings. *)
Theorem hover_revisions_labels (unit : Unit) (idx : nat)
    (rest : list Legacy.LociElement) (rest' : list LociElement) (w : World) :
  nth_error (unit_elements unit) idx = Some idx ->
  let compId := atoms_label_comp_id (unit_model unit) idx in
  let seqId :=
    Number_toString
      (residues_label_seq_id (unit_model unit)
         (residueAtomSegments_index (unit_model unit) idx)) in
  events
    (Legacy.hover_subscriber
       (Legacy.StructureElementLoci
          ({| Legacy.element_unit := unit;
              Legacy.element_indices_start := idx |} :: rest)) w)
  = [Shiny_setInputValue (str "hoveredResidue")
       (host_string (compId ++ [160%N] ++ seqId))]
  /\ In (Shiny_setInputValue (MY_MODULE_NS w ++ str "resiinfo")
           (host_string (compId ++ [32%N] ++ seqId)))
        (events
           (hover_subscriber
              (StructureElementLoci
                 ({| element_unit := Some unit;
                     element_indices := {| OrderedSet_start := Some idx |} |}
                  :: rest')) w))
  /\ compId ++ [160%N] ++ seqId <> compId ++ [32%N] ++ seqId.
Proof.
  intros H compId seqId. subst compId seqId. split; [|split].
  - now rewrite Legacy_hover_label.
  - unfold hover_subscriber. rewrite getResidueInfo_first_atom.
    unfold first_atom. cbn [element_unit element_indices OrderedSet_start].
    rewrite H. simpl. auto.
  - intros E. apply app_inv_head in E. discriminate E.
Qed.

Lemma hover_revisions_labels_witness :
  nth_error (unit_elements sample_unit) 2 = Some 2%nat
  /\ events
       (Legacy.hover_subscriber
          (Legacy.StructureElementLoci
             [{| Legacy.element_unit := sample_unit;
                 Legacy.element_indices_start := 2 |}])
          (world_with [] loaded_plugin))
     = [Shiny_setInputValue (str "hoveredResidue")
          (host_string (str "ALA" ++ [160%N] ++ str "105"))].
Proof.
  assert (nth_error (unit_elements sample_unit) 2 = Some 2%nat) as H
    by reflexivity.
  split; [exact H|].
  exact (proj1 (@hover_revisions_labels sample_unit 2%nat [] []
                  (world_with [] loaded_plugin) H)).
Defined.

(** ** Further facts on single functions *)

(** X1.  The local [flatten] returns the non-array values of its argument from
    left to right, whatever the depth of nesting; empty arrays contribute
    nothing and a value that is not an array comes back as a one-element
    list. *)
Theorem flatten_collects_leaves (positions : JSValue) :
  flatten positions = leaves positions
  /\ (forall elems,
        flatten (JArray (JArray [] :: elems)) = flatten (JArray elems))
  /\ (forall p, flatten (JLeaf p) = [p])
  /\ (forall xs ys,
        flatten (JArray [JArray xs; JArray ys]) = flatten (JArray (xs ++ ys))).
Proof.
  split; [apply flatten_leaves|]. split; [|split].
  - intros elems. rewrite !flatten_JArray. cbn [flat_map].
    now rewrite flatten_JArray.
  - reflexivity.
  - intros xs ys. rewrite !flatten_JArray. cbn [flat_map].
    now rewrite !flatten_JArray, app_nil_r, flat_map_app.
Qed.

(** X19.  The two highlight mechanisms do not interfere: [highlightDomains] never
    names the ['mutations'] group, and [highlightResidueWithSphere] never
    applies an overpaint transform nor names the cartoon representation. *)
Theorem highlights_independent (StringToNumber : JSString -> number)
    (plugin : PluginContext) (colorHex : option JSString) (w : World) :
  (forall residueStart residueEnd,
     existsb (event_mentions (str "mutations"))
       (events (highlightDomains plugin residueStart residueEnd colorHex w))
     = false)
  /\ (forall positions,
        let r := highlightResidueWithSphere StringToNumber plugin positions
                   colorHex w in
        flat_map event_layers (events r) = []
        /\ existsb (event_mentions cartoonRef) (events r) = false).
Proof.
  split.
  - intros residueStart residueEnd.
    destruct (highlightDomains_cases plugin residueStart residueEnd colorHex w)
      as [(_ & _ & text & args & E)
         | (structure & _ & _ & _ & [(_ & _ & E) | (_ & _ & E)])];
      now rewrite E.
  - intros positions r. subst r. unfold highlightResidueWithSphere.
    destruct (uniquePos StringToNumber positions) as [|z l];
      [split; reflexivity|].
    run_body. cbn [List.length Nat.eqb].
    destruct (isNaN _); [split; reflexivity|].
    destruct (nth_error (structures plugin) 0) as [structCell|];
      [|split; reflexivity].
    destruct (obj (cell structCell)); split; reflexivity.
Qed.

(** X18.  In the earlier revision the subscriber sets ['hoveredResidue'] to
    component id, U+00A0, sequence id for every structure-element loci with
    at least one element (the test [if (label)] never fails, a label is not
    empty), sets nothing for any other loci, and never changes the module
    state. *)
Theorem Legacy_hover_sets_label (loci : Legacy.Loci) (w : World) :
  let r := Legacy.hover_subscriber loci w in
  completion r = Normal tt
  /\ world_after r = w
  /\ events r
     = match loci with
       | Legacy.StructureElementLoci (e :: _) =>
           [Shiny_setInputValue (str "hoveredResidue")
              (host_string
                 (atoms_label_comp_id (unit_model (Legacy.element_unit e))
                    (Legacy.element_indices_start e)
                  ++ [160%N]
                  ++ Number_toString
                       (residues_label_seq_id (unit_model (Legacy.element_unit e))
                          (residueAtomSegments_index
                             (unit_model (Legacy.element_unit e))
                             (Legacy.element_indices_start e)))))]
       | _ => []
       end.
Proof.
  intros r. subst r. split; [|split]; [| |apply Legacy_hover_label];
    destruct loci as [[|e rest]|]; try reflexivity;
    unfold Legacy.hover_subscriber, Legacy.getResidueInfo;
    destruct (atoms_label_comp_id _ _); reflexivity.
Qed.

(** X4.  Positions are rounded down, also below zero: every cleaned
    position [z] comes from a flattened value whose number is finite and
    lies in the half-open interval from [z] to [z + 1]; and an integral
    number among the flattened values is itself a cleaned position. *)
Theorem cleaned_positions_round_down (StringToNumber : JSString -> number)
    (positions : JSValue) :
  (forall z,
     In z (uniquePos StringToNumber positions) ->
     exists p,
       In p (flatten positions)
       /\ Number_isFinite (Number StringToNumber p) = true
       /\ (inject_Z z <= value (Number StringToNumber p))%Q
       /\ (value (Number StringToNumber p) < inject_Z (z + 1))%Q)
  /\ (forall z,
        In (JNumber (of_int z)) (flatten positions) ->
        In z (uniquePos StringToNumber positions)).
Proof.
  split.
  - intros z Hz. apply uniquePos_In, posNums_In in Hz.
    destruct Hz as (p & Hp & Hf & <-). exists p.
    split; [exact Hp|]. split; [exact Hf|]. apply Math_floor_spec.
  - intros z Hz. apply uniquePos_In, posNums_In.
    exists (JNumber (of_int z)). split; [exact Hz|]. split.
    + apply of_int_finite.
    + apply Math_floor_of_int.
Qed.

Lemma cleaned_positions_round_down_witness :
  In (-3) (uniquePos not_numeric
             (JArray [JLeaf (JNumber (S754_finite true 5 (-1)))]))
  /\ exists p,
       In p (flatten (JArray [JLeaf (JNumber (S754_finite true 5 (-1)))]))
       /\ Number_isFinite (Number not_numeric p) = true
       /\ (inject_Z (-3) <= value (Number not_numeric p))%Q
       /\ (value (Number not_numeric p) < inject_Z (-3 + 1))%Q.
Proof.
  assert (In (-3) (uniquePos not_numeric
                     (JArray [JLeaf (JNumber (S754_finite true 5 (-1)))])))
    as H by (simpl; auto).
  split; [exact H|].
  exact (proj1 (cleaned_positions_round_down not_numeric
                  (JArray [JLeaf (JNumber (S754_finite true 5 (-1)))]))
           (-3) H).
Defined.
